(** * Dev³ decision store and consensus calculation

    A shallow embedding of [server/storage.ts] (class [MemStorage]) and of the
    response and consensus endpoints of [server/routes.ts], with the
    properties of the deliberation workflow proved about them.

    The three JavaScript [Map]s of [MemStorage] are finite maps keyed by
    decision id; arrays are lists, and the array write [responses[i] = r] is
    the list update [<[i:=r]>].  Every store method is a function from the
    store to a result and the next store.  The two effects of the
    environment, [randomUUID()] and [new Date().toISOString()], are made
    explicit: a method receives the values it draws in a [Sys] record. *)

From stdpp Require Import base option list gmap strings pretty.

(** ** Data model ([shared/schema] types, as used by the server) *)

Inductive Vote := approve | reject | abstain.
Inductive Outcome := approved | rejected | needs_revision.
Inductive DecisionStatus := pending | deliberating | consensus_reached | deadlock.

#[global] Instance Vote_eq_dec : EqDecision Vote.
Proof. solve_decision. Defined.
#[global] Instance Outcome_eq_dec : EqDecision Outcome.
Proof. solve_decision. Defined.
#[global] Instance DecisionStatus_eq_dec : EqDecision DecisionStatus.
Proof. solve_decision. Defined.

(** The literal a vote is printed as in a template string. *)
Definition vote_literal (v : Vote) : string :=
  match v with
  | approve => "approve"
  | reject => "reject"
  | abstain => "abstain"
  end.

(** [InsertAIResponse]: a response as submitted, before the store stamps it. *)
Record InsertAIResponse := mkInsertAIResponse {
  ins_decisionId : string;
  ins_model : string;
  ins_vote : Vote;
  ins_reasoning : string;
  ins_confidence : nat;
  ins_risks : option (list string);
  ins_recommendations : option (list string)
}.

(** [AIResponse = InsertAIResponse & { id, createdAt }]. *)
Record AIResponse := mkAIResponse {
  r_id : string;
  r_decisionId : string;
  model : string;
  vote : Vote;
  reasoning : string;
  confidence : nat;
  risks : option (list string);
  recommendations : option (list string);
  r_createdAt : string
}.

Record VoteSummary := mkVoteSummary {
  vs_approve : nat;
  vs_reject : nat;
  vs_abstain : nat
}.

(** [Omit<Consensus, "id" | "decisionId" | "createdAt">]; an absent
    [actionItems] (JavaScript [undefined]) is [None]. *)
Record ConsensusData := mkConsensusData {
  cd_outcome : Outcome;
  cd_unanimity : bool;
  cd_voteSummary : VoteSummary;
  cd_synthesizedReasoning : string;
  cd_actionItems : option (list string)
}.

Record Consensus := mkConsensus {
  c_id : string;
  c_decisionId : string;
  outcome : Outcome;
  unanimity : bool;
  voteSummary : VoteSummary;
  synthesizedReasoning : string;
  actionItems : option (list string);
  c_createdAt : string
}.

Record InsertDecision := mkInsertDecision {
  ind_title : string;
  ind_description : string;
  ind_context : option string;
  ind_category : string;
  ind_priority : string
}.

(** A [Decision] object.  The stored object carries its own [responses] and
    [consensus] fields (set once by [createDecision]); every read replaces
    them by the contents of the two other maps. *)
Record Decision := mkDecision {
  d_id : string;
  title : string;
  description : string;
  context : option string;
  category : string;
  priority : string;
  status : DecisionStatus;
  responses : list AIResponse;
  consensus : option Consensus;
  d_createdAt : string;
  updatedAt : string
}.

(** Modelled from the spec: [UpdateDecision] is declared in [shared/schema],
    which is not part of the sources at hand.  The spec's [update] "applies
    only the supplied fields" and is the one way to reach status [deadlock],
    so the partial carries the descriptive fields and the status. *)
Record UpdateDecision := mkUpdateDecision {
  upd_title : option string;
  upd_description : option string;
  upd_context : option string;
  upd_category : option string;
  upd_priority : option string;
  upd_status : option DecisionStatus
}.

(** ** The environment *)

(** What one call of a store method draws from the environment: the result of
    [randomUUID()], and the results of its first and of its second
    [new Date().toISOString()]. *)
Record Sys := mkSys {
  randomUUID : string;
  now : string;
  now' : string
}.

(** ** [MemStorage] *)

Record MemStorage := mkMemStorage {
  decisions : gmap string Decision;
  aiResponses : gmap string (list AIResponse);
  consensuses : gmap string Consensus
}.

(** [new MemStorage()] *)
Definition newMemStorage : MemStorage :=
  {| decisions := ∅; aiResponses := ∅; consensuses := ∅ |}.

Definition set_status (st : DecisionStatus) (t : string) (d : Decision) : Decision :=
  {| d_id := d_id d; title := title d; description := description d;
     context := context d; category := category d; priority := priority d;
     status := st; responses := responses d; consensus := consensus d;
     d_createdAt := d_createdAt d; updatedAt := t |}.

(** [{ ...decision, responses, consensus: consensus || null }] *)
Definition attach (rs : list AIResponse) (c : option Consensus) (d : Decision) : Decision :=
  {| d_id := d_id d; title := title d; description := description d;
     context := context d; category := category d; priority := priority d;
     status := status d; responses := rs; consensus := c;
     d_createdAt := d_createdAt d; updatedAt := updatedAt d |}.

(** [this.aiResponses.get(id) || []] *)
Definition getAIResponses (s : MemStorage) (decisionId : string) : list AIResponse :=
  default [] (aiResponses s !! decisionId).

Definition getConsensus (s : MemStorage) (decisionId : string) : option Consensus :=
  consensuses s !! decisionId.

Definition getDecision (s : MemStorage) (id : string) : option Decision :=
  match decisions s !! id with
  | None => None
  | Some decision =>
      Some (attach (getAIResponses s id) (getConsensus s id) decision)
  end.

Definition createDecision (sys : Sys) (insertDecision : InsertDecision) (s : MemStorage)
  : Decision * MemStorage :=
  let id := randomUUID sys in
  let decision :=
    {| d_id := id; title := ind_title insertDecision;
       description := ind_description insertDecision;
       context := ind_context insertDecision;
       category := ind_category insertDecision;
       priority := ind_priority insertDecision;
       status := pending; responses := []; consensus := None;
       d_createdAt := now sys; updatedAt := now sys |} in
  (decision,
   {| decisions := <[id := decision]> (decisions s);
      aiResponses := <[id := []]> (aiResponses s);
      consensuses := consensuses s |}).

(** [{ ...decision, ...updates, updatedAt }] *)
Definition apply_updates (updates : UpdateDecision) (t : string) (d : Decision) : Decision :=
  {| d_id := d_id d;
     title := default (title d) (upd_title updates);
     description := default (description d) (upd_description updates);
     context := match upd_context updates with Some c => Some c | None => context d end;
     category := default (category d) (upd_category updates);
     priority := default (priority d) (upd_priority updates);
     status := default (status d) (upd_status updates);
     responses := responses d; consensus := consensus d;
     d_createdAt := d_createdAt d; updatedAt := t |}.

Definition updateDecision (sys : Sys) (id : string) (updates : UpdateDecision) (s : MemStorage)
  : option Decision * MemStorage :=
  match decisions s !! id with
  | None => (None, s)
  | Some decision =>
      let updated := apply_updates updates (now sys) decision in
      let s' := {| decisions := <[id := updated]> (decisions s);
                   aiResponses := aiResponses s;
                   consensuses := consensuses s |} in
      (Some (attach (getAIResponses s' id) (getConsensus s' id) updated), s')
  end.

Definition deleteDecision (id : string) (s : MemStorage) : bool * MemStorage :=
  let existed := bool_decide (is_Some (decisions s !! id)) in
  (existed,
   {| decisions := delete id (decisions s);
      aiResponses := delete id (aiResponses s);
      consensuses := delete id (consensuses s) |}).

(** [{ ...insertResponse, id, createdAt }] *)
Definition stamp (id createdAt : string) (ins : InsertAIResponse) : AIResponse :=
  {| r_id := id; r_decisionId := ins_decisionId ins; model := ins_model ins;
     vote := ins_vote ins; reasoning := ins_reasoning ins;
     confidence := ins_confidence ins; risks := ins_risks ins;
     recommendations := ins_recommendations ins; r_createdAt := createdAt |}.

(** [Array.prototype.findIndex]; [None] stands for the result [-1]. *)
Fixpoint findIndex {A} (p : A → bool) (l : list A) : option nat :=
  match l with
  | [] => None
  | x :: l' => if p x then Some 0 else S <$> findIndex p l'
  end.

(** [responses[existingIndex] = response] or [responses.push(response)] *)
Definition upsert (response : AIResponse) (responses : list AIResponse) : list AIResponse :=
  match findIndex (λ r, String.eqb (model r) (model response)) responses with
  | Some existingIndex => <[existingIndex := response]> responses
  | None => responses ++ [response]
  end.

Inductive ErrorBody :=
| error_only (error : string)
| validation_failed                      (* [{ error: "Validation failed", details }] *)
| cannot_reach (error message : string) (responded missing : list string).

Inductive Reply (A : Type) :=
| reply_json (code : nat) (body : A)
| reply_error (code : nat) (body : ErrorBody).
Arguments reply_json {A} code body.
Arguments reply_error {A} code body.

(** ** Plain objects used as tables *)

(** What a plain object inherits: a key that is not an own property is
    looked up in [Object.prototype].  There it finds one of the built-in
    functions, or, under ["__proto__"], the prototype object itself. *)
Inductive Inherited :=
| inherited_function (name : string)   (* a function, with its [name] *)
| inherited_prototype.                 (* [Object.prototype], read through [__proto__] *)

(** The members of [Object.prototype] (Node.js). *)
Definition Object_prototype (k : string) : option Inherited :=
  if bool_decide (k = "__proto__") then Some inherited_prototype
  else if bool_decide (k = "constructor") then Some (inherited_function "Object")
  else if bool_decide
            (k ∈ ["__defineGetter__"; "__defineSetter__"; "hasOwnProperty";
                  "__lookupGetter__"; "__lookupSetter__"; "isPrototypeOf";
                  "propertyIsEnumerable"; "toString"; "valueOf"; "toLocaleString"])
       then Some (inherited_function k)
  else None.

(** A built-in function converted to a string, as [fn + 1] does. *)
Definition native_code (name : string) : string :=
  "function " +:+ name +:+ "() { [native code] }".

Section Schema.

(** Modelled from the spec: [AI_MODELS] is a constant of [shared/schema],
    which is not among the sources; the spec has it as "a fixed, closed list
    of required voter identities".  The store and the endpoints are
    parametric in it. *)
Variable AI_MODELS : list string.

(** Modelled from the spec: [AI_MODEL_ROLES], of [shared/schema] too, gives
    every voter its "display metadata (a short role name and a one-line
    mandate)".  The map holds, for every own entry [m] of the table,
    [AI_MODEL_ROLES[m].name], the one field the server reads. *)
Variable AI_MODEL_ROLES : gmap string string.

(** [AI_MODELS.every(model => responses.some(r => r.model === model))] *)
Definition allResponded (responses : list AIResponse) : bool :=
  forallb (λ m, existsb (λ r, String.eqb (model r) m) responses) AI_MODELS.

Definition addAIResponse (sys : Sys) (insertResponse : InsertAIResponse) (s : MemStorage)
  : AIResponse * MemStorage :=
  let id := randomUUID sys in
  let response := stamp id (now sys) insertResponse in
  let responses := upsert response (getAIResponses s (ins_decisionId insertResponse)) in
  let aiResponses' := <[ins_decisionId insertResponse := responses]> (aiResponses s) in
  let decisions' :=
    match decisions s !! ins_decisionId insertResponse with
    | Some decision =>
        if allResponded responses && bool_decide (status decision = pending)
        then <[ins_decisionId insertResponse := set_status deliberating (now' sys) decision]>
               (decisions s)
        else decisions s
    | None => decisions s
    end in
  (response,
   {| decisions := decisions'; aiResponses := aiResponses';
      consensuses := consensuses s |}).

(** [{ ...consensusData, id, decisionId, createdAt }] *)
Definition stamp_consensus (id decisionId createdAt : string) (cd : ConsensusData) : Consensus :=
  {| c_id := id; c_decisionId := decisionId; outcome := cd_outcome cd;
     unanimity := cd_unanimity cd; voteSummary := cd_voteSummary cd;
     synthesizedReasoning := cd_synthesizedReasoning cd;
     actionItems := cd_actionItems cd; c_createdAt := createdAt |}.

Definition setConsensus (sys : Sys) (decisionId : string) (consensusData : ConsensusData)
    (s : MemStorage) : option Consensus * MemStorage :=
  match decisions s !! decisionId with
  | None => (None, s)
  | Some decision =>
      let c := stamp_consensus (randomUUID sys) decisionId (now sys) consensusData in
      (Some c,
       {| decisions := <[decisionId := set_status consensus_reached (now' sys) decision]>
                         (decisions s);
          aiResponses := aiResponses s;
          consensuses := <[decisionId := c]> (consensuses s) |})
  end.

(** ** The consensus calculation (inline in [POST /api/decisions/:id/consensus]) *)

(** [responses.filter(r => r.vote === v).length] *)
Definition count_vote (v : Vote) (responses : list AIResponse) : nat :=
  length (filter (λ r, vote r = v) responses).

Definition calc_voteSummary (responses : list AIResponse) : VoteSummary :=
  {| vs_approve := count_vote approve responses;
     vs_reject := count_vote reject responses;
     vs_abstain := count_vote abstain responses |}.

Definition calc_outcome (voteSummary : VoteSummary) : Outcome :=
  if bool_decide (2 ≤ vs_approve voteSummary)%nat then approved
  else if bool_decide (2 ≤ vs_reject voteSummary)%nat then rejected
  else needs_revision.

Definition calc_unanimity (voteSummary : VoteSummary) : bool :=
  bool_decide (vs_approve voteSummary = 3%nat) || bool_decide (vs_reject voteSummary = 3%nat).

Definition newline : string := String (Ascii.ascii_of_nat 10) "".

(** [`${AI_MODEL_ROLES[k].name}`]: the name of the own entry; for a key the
    table only inherits, the name of the inherited function, or ["undefined"]
    for the prototype object, which has no [name]; [None] when
    [AI_MODEL_ROLES[k]] is undefined and reading [.name] throws. *)
Definition role_name (k : string) : option string :=
  match AI_MODEL_ROLES !! k with
  | Some name => Some name
  | None =>
      match Object_prototype k with
      | Some (inherited_function name) => Some name
      | Some inherited_prototype => Some "undefined"
      | None => None
      end
  end.

(** One entry of [reasonings]; [None] when the read of the role name throws. *)
Definition reasoning_line (r : AIResponse) : option string :=
  name ← role_name (model r);
  Some (name +:+ " (" +:+ vote_literal (vote r) +:+ ", " +:+ pretty (confidence r)
          +:+ "% confidence): " +:+ reasoning r).

(** [reasonings.join("\n\n")] *)
Definition calc_synthesizedReasoning (responses : list AIResponse) : option string :=
  String.concat (newline +:+ newline) <$> mapM reasoning_line responses.

(** [responses.flatMap(r => r.recommendations || [])] *)
Definition allActionItems (responses : list AIResponse) : list string :=
  flat_map (λ r, default [] (recommendations r)) responses.

(** [Set.prototype.add]: a set keeps its members in insertion order, and
    adding a member again changes nothing. *)
Definition set_add (seen : list string) (x : string) : list string :=
  if bool_decide (x ∈ seen) then seen else seen ++ [x].

(** [Array.from(new Set(items))] *)
Definition array_from_set (items : list string) : list string :=
  foldl set_add [] items.

Definition uniqueActionItems (responses : list AIResponse) : list string :=
  array_from_set (allActionItems responses).

(** [uniqueActionItems.length > 0 ? uniqueActionItems : undefined] *)
Definition calc_actionItems (responses : list AIResponse) : option (list string) :=
  let unique := uniqueActionItems responses in
  if bool_decide (0 < length unique)%nat then Some unique else None.

(** The object handed to [storage.setConsensus]:
    [{ outcome, unanimity, voteSummary, synthesizedReasoning, actionItems }]. *)
Definition payload (rs : list AIResponse) (text : string) : ConsensusData :=
  {| cd_outcome := calc_outcome (calc_voteSummary rs);
     cd_unanimity := calc_unanimity (calc_voteSummary rs);
     cd_voteSummary := calc_voteSummary rs;
     cd_synthesizedReasoning := text;
     cd_actionItems := calc_actionItems rs |}.

(** ** The endpoints *)

Definition with_decisionId (id : string) (b : InsertAIResponse) : InsertAIResponse :=
  {| ins_decisionId := id; ins_model := ins_model b; ins_vote := ins_vote b;
     ins_reasoning := ins_reasoning b; ins_confidence := ins_confidence b;
     ins_risks := ins_risks b; ins_recommendations := ins_recommendations b |}.

(** [POST /api/decisions/:id/responses].  [body] is the outcome of
    [insertAIResponseSchema.parse({ ...req.body, decisionId: id })]: [None]
    when the parse raises a [ZodError]. *)
Definition postResponse (sys : Sys) (id : string) (body : option InsertAIResponse)
    (s : MemStorage) : Reply AIResponse * MemStorage :=
  match getDecision s id with
  | None => (reply_error 404 (error_only "Decision not found"), s)
  | Some _ =>
      match body with
      | None => (reply_error 400 validation_failed, s)
      | Some b =>
          let (response, s') := addAIResponse sys (with_decisionId id b) s in
          (reply_json 201 response, s')
      end
  end.

(** [GET /api/decisions/:id/responses] *)
Definition listResponses (id : string) (s : MemStorage) : Reply (list AIResponse) :=
  match getDecision s id with
  | None => reply_error 404 (error_only "Decision not found")
  | Some _ => reply_json 200 (getAIResponses s id)
  end.

(** [AI_MODELS.filter(m => !responses.some(r => r.model === m))] *)
Definition missing (responses : list AIResponse) : list string :=
  List.filter (λ m, negb (existsb (λ r, String.eqb (model r) m) responses)) AI_MODELS.

(** [POST /api/decisions/:id/consensus] *)
Definition postConsensus (sys : Sys) (id : string) (s : MemStorage)
  : Reply (option Consensus) * MemStorage :=
  match getDecision s id with
  | None => (reply_error 404 (error_only "Decision not found"), s)
  | Some _ =>
      let responses := getAIResponses s id in
      if negb (allResponded responses) then
        (reply_error 400
           (cannot_reach "Cannot reach consensus"
              "All three AI models must respond before consensus can be reached"
              (model <$> responses) (missing responses)), s)
      else
        match calc_synthesizedReasoning responses with
        | None => (reply_error 500 (error_only "Failed to reach consensus"), s)
        | Some synthesizedReasoning =>
            let (consensus, s') :=
              setConsensus sys id (payload responses synthesizedReasoning) s in
            (reply_json 201 consensus, s')
        end
  end.

(** [POST /api/decisions].  [body] is the outcome of
    [insertDecisionSchema.parse(req.body)]: [None] when it raises a
    [ZodError]. *)
Definition postDecision (sys : Sys) (body : option InsertDecision) (s : MemStorage)
  : Reply Decision * MemStorage :=
  match body with
  | None => (reply_error 400 validation_failed, s)
  | Some validatedData =>
      let (decision, s') := createDecision sys validatedData s in
      (reply_json 201 decision, s')
  end.

(** [GET /api/decisions/:id] *)
Definition fetchDecision (id : string) (s : MemStorage) : Reply Decision :=
  match getDecision s id with
  | None => reply_error 404 (error_only "Decision not found")
  | Some decision => reply_json 200 decision
  end.

(** [PATCH /api/decisions/:id].  [body] is the outcome of
    [updateDecisionSchema.parse(req.body)], which runs before the store is
    asked. *)
Definition patchDecision (sys : Sys) (id : string) (body : option UpdateDecision)
    (s : MemStorage) : Reply Decision * MemStorage :=
  match body with
  | None => (reply_error 400 validation_failed, s)
  | Some validatedData =>
      match updateDecision sys id validatedData s with
      | (None, s') => (reply_error 404 (error_only "Decision not found"), s')
      | (Some decision, s') => (reply_json 200 decision, s')
      end
  end.

(** [DELETE /api/decisions/:id].  The store is asked to delete first; the
    answer 204 has no body. *)
Definition removeDecision (id : string) (s : MemStorage) : Reply unit * MemStorage :=
  let (deleted, s') := deleteDecision id s in
  if deleted then (reply_json 204 (), s')
  else (reply_error 404 (error_only "Decision not found"), s').

(** [GET /api/decisions/:id/consensus] *)
Definition fetchConsensus (id : string) (s : MemStorage) : Reply Consensus :=
  match getDecision s id with
  | None => reply_error 404 (error_only "Decision not found")
  | Some _ =>
      match getConsensus s id with
      | None => reply_error 404 (error_only "No consensus reached yet")
      | Some consensus => reply_json 200 consensus
      end
  end.

End Schema.

(** ** Notions of the specification *)

(** The majority threshold of a voter set of size [n]: the least count that
    is strictly more than half of [n], written [ceil((n+1)/2)]. *)
Definition majority_threshold (n : nat) : nat := (n + 1 + 1) / 2.

(** Deduplication that keeps, of every string, its first occurrence. *)
Fixpoint keep_first (l : list string) : list string :=
  match l with
  | [] => []
  | x :: l' => x :: filter (λ y, y ≠ x) (keep_first l')
  end.

(** Every response carries the identical vote value. *)
Definition same_vote (rs : list AIResponse) : Prop :=
  ∀ r r', r ∈ rs → r' ∈ rs → vote r = vote r'.

(** A complete response set: one response per required voter. *)
Definition complete (AI_MODELS : list string) (rs : list AIResponse) : Prop :=
  NoDup (model <$> rs)
  ∧ (∀ r, r ∈ rs → model r ∈ AI_MODELS)
  ∧ (∀ m, m ∈ AI_MODELS → m ∈ (model <$> rs)).

(** The store invariant of the one-response-per-voter rule. *)
Definition unique_voters (s : MemStorage) : Prop :=
  ∀ id, NoDup (model <$> getAIResponses s id).

(** One operation of the store. *)
Inductive step (AI_MODELS : list string) : MemStorage → MemStorage → Prop :=
| step_create sys ins s :
    step AI_MODELS s (createDecision sys ins s).2
| step_update sys id updates s :
    step AI_MODELS s (updateDecision sys id updates s).2
| step_delete id s :
    step AI_MODELS s (deleteDecision id s).2
| step_add sys ins s :
    step AI_MODELS s (addAIResponse AI_MODELS sys ins s).2
| step_consensus sys id cd s :
    step AI_MODELS s (setConsensus sys id cd s).2.

(** The stores the singleton [storage] can be in. *)
Definition reachable (AI_MODELS : list string) (s : MemStorage) : Prop :=
  rtc (step AI_MODELS) newMemStorage s.

(** A sequence of submissions, each with what it draws from the environment. *)
Definition submitAll (AI_MODELS : list string) (subs : list (Sys * InsertAIResponse))
    (s : MemStorage) : MemStorage :=
  foldl (λ s sub, (addAIResponse AI_MODELS sub.1 sub.2 s).2) s subs.

(** ** Statistics ([GET /api/stats]) *)

Record StatusCounts := mkStatusCounts {
  n_pending : nat;
  n_deliberating : nat;
  n_consensus_reached : nat;
  n_deadlock : nat
}.

Record OutcomeCounts := mkOutcomeCounts {
  n_approved : nat;
  n_rejected : nat;
  n_needs_revision : nat
}.

(** An entry of [byCategory] or [byPriority]: declared a number, it holds a
    string once [+ 1] was applied to something that is not a number. *)
Inductive Count :=
| count_number (n : nat)
| count_text (s : string).

Record Stats := mkStats {
  totalDecisions : nat;
  byStatus : StatusCounts;
  byCategory : gmap string Count;
  byPriority : gmap string Count;
  consensusOutcomes : OutcomeCounts;
  unanimousDecisions : nat
}.

(** [decisions.filter(d => d.status === st).length] *)
Definition count_status (st : DecisionStatus) (ds : list Decision) : nat :=
  length (filter (λ d, status d = st) ds).

(** The own entry under [k] after [counts[k] = (counts[k] || 0) + 1], from
    the own entry before.  Without an own entry the read finds what the
    object inherits: nothing, for most keys, and the count starts at 1; a
    built-in function, which [+ 1] turns into a string; or the prototype
    object under ["__proto__"], where the assignment of the resulting string
    is ignored and no entry appears. *)
Definition bumped (k : string) (entry : option Count) : option Count :=
  match entry with
  | Some (count_number n) => Some (count_number (n + 1))
  | Some (count_text s) =>
      if bool_decide (s = "") then Some (count_number 1)
      else Some (count_text (s +:+ "1"))
  | None =>
      match Object_prototype k with
      | None => Some (count_number 1)
      | Some (inherited_function name) => Some (count_text (native_code name +:+ "1"))
      | Some inherited_prototype => None
      end
  end.

(** [counts[k] = (counts[k] || 0) + 1] *)
Definition bump (k : string) (counts : gmap string Count) : gmap string Count :=
  match bumped k (counts !! k) with
  | Some entry => <[k := entry]> counts
  | None => counts
  end.

(** [stats.consensusOutcomes[o]++] *)
Definition bump_outcome (o : Outcome) (oc : OutcomeCounts) : OutcomeCounts :=
  match o with
  | approved =>
      {| n_approved := n_approved oc + 1; n_rejected := n_rejected oc;
         n_needs_revision := n_needs_revision oc |}
  | rejected =>
      {| n_approved := n_approved oc; n_rejected := n_rejected oc + 1;
         n_needs_revision := n_needs_revision oc |}
  | needs_revision =>
      {| n_approved := n_approved oc; n_rejected := n_rejected oc;
         n_needs_revision := n_needs_revision oc + 1 |}
  end.

(** The body of the loop [for (const decision of decisions)]. *)
Definition stats_visit (stats : Stats) (decision : Decision) : Stats :=
  {| totalDecisions := totalDecisions stats;
     byStatus := byStatus stats;
     byCategory := bump (category decision) (byCategory stats);
     byPriority := bump (priority decision) (byPriority stats);
     consensusOutcomes :=
       match consensus decision with
       | Some c => bump_outcome (outcome c) (consensusOutcomes stats)
       | None => consensusOutcomes stats
       end;
     unanimousDecisions :=
       match consensus decision with
       | Some c => if unanimity c then unanimousDecisions stats + 1
                   else unanimousDecisions stats
       | None => unanimousDecisions stats
       end |}.

(** The object [stats] before the loop. *)
Definition stats_init (ds : list Decision) : Stats :=
  {| totalDecisions := length ds;
     byStatus :=
       {| n_pending := count_status pending ds;
          n_deliberating := count_status deliberating ds;
          n_consensus_reached := count_status consensus_reached ds;
          n_deadlock := count_status deadlock ds |};
     byCategory := ∅;
     byPriority := ∅;
     consensusOutcomes := {| n_approved := 0; n_rejected := 0; n_needs_revision := 0 |};
     unanimousDecisions := 0 |}.

(** The statistics the endpoint answers with, computed from the array
    [decisions] that [storage.getAllDecisions()] returned. *)
Definition calc_stats (ds : list Decision) : Stats :=
  foldl stats_visit (stats_init ds) ds.

(** ** The server as a whole *)

(** One request that can change the store. *)
Inductive api_step (AI_MODELS : list string) (AI_MODEL_ROLES : gmap string string)
  : MemStorage → MemStorage → Prop :=
| api_postDecision sys body s :
    api_step AI_MODELS AI_MODEL_ROLES s (postDecision sys body s).2
| api_patchDecision sys id body s :
    api_step AI_MODELS AI_MODEL_ROLES s (patchDecision sys id body s).2
| api_removeDecision id s :
    api_step AI_MODELS AI_MODEL_ROLES s (removeDecision id s).2
| api_postResponse sys id body s :
    api_step AI_MODELS AI_MODEL_ROLES s (postResponse AI_MODELS sys id body s).2
| api_postConsensus sys id s :
    api_step AI_MODELS AI_MODEL_ROLES s
      (postConsensus AI_MODELS AI_MODEL_ROLES sys id s).2.

(** The stores the server can be in when it is driven by requests only. *)
Definition api_reachable (AI_MODELS : list string) (AI_MODEL_ROLES : gmap string string)
    (s : MemStorage) : Prop :=
  rtc (api_step AI_MODELS AI_MODEL_ROLES) newMemStorage s.

(** Responses and consensus are on file for existing decisions only. *)
Definition no_orphans (s : MemStorage) : Prop :=
  ∀ id, decisions s !! id = None →
        aiResponses s !! id = None ∧ consensuses s !! id = None.

(** ** A concrete configuration: the three voters of the README *)

Module Trinity.

Definition AI_MODELS : list string := ["grok"; "chatgpt"; "claude"].

Definition AI_MODEL_ROLES : gmap string string :=
  <["grok" := "Grok"]> (<["chatgpt" := "ChatGPT"]> (<["claude" := "Claude"]> ∅)).

Definition sys (n : string) : Sys :=
  {| randomUUID := "id-" +:+ n; now := "T" +:+ n; now' := "U" +:+ n |}.

Definition proposal : InsertDecision :=
  {| ind_title := "Implement Dark Mode"; ind_description := "Add a toggle?";
     ind_context := None; ind_category := "feature"; ind_priority := "high" |}.

Definition submission (m : string) (v : Vote) (recs : option (list string))
  : InsertAIResponse :=
  {| ins_decisionId := "id-0"; ins_model := m; ins_vote := v;
     ins_reasoning := "because"; ins_confidence := 90; ins_risks := None;
     ins_recommendations := recs |}.

(** A store with one decision, ["id-0"], and no response. *)
Definition created : MemStorage := (createDecision (sys "0") proposal newMemStorage).2.

(** The decision after the given votes of grok, chatgpt and claude. *)
Definition voted (v1 v2 v3 : Vote) : MemStorage :=
  submitAll AI_MODELS
    [(sys "1", submission "grok" v1 (Some ["use CSS variables"; "add tests"]));
     (sys "2", submission "chatgpt" v2 (Some ["add tests"; "ship it"]));
     (sys "3", submission "claude" v3 None)]
    created.

(** Only grok and chatgpt have responded. *)
Definition two_voted : MemStorage :=
  submitAll AI_MODELS
    [(sys "1", submission "grok" approve None);
     (sys "2", submission "chatgpt" approve None)]
    created.

(** The stored record of decision ["id-0"], by status and last update. *)
Definition decision (st : DecisionStatus) (updated : string) : Decision :=
  {| d_id := "id-0"; title := "Implement Dark Mode"; description := "Add a toggle?";
     context := None; category := "feature"; priority := "high"; status := st;
     responses := []; consensus := None; d_createdAt := "T0"; updatedAt := updated |}.

(** The first response of grok in [voted], and a later one that abstains. *)
Definition grok_first (v : Vote) : AIResponse :=
  stamp "id-1" "T1" (submission "grok" v (Some ["use CSS variables"; "add tests"])).

Definition grok_again : InsertAIResponse := submission "grok" abstain None.

End Trinity.

(** Decisions as [GET /api/stats] sees them, for the examples. *)
Module Board.

(** The store after the consensus endpoint was asked for decision ["id-0"]. *)
Definition decided (v1 v2 v3 : Vote) : MemStorage :=
  (postConsensus Trinity.AI_MODELS Trinity.AI_MODEL_ROLES (Trinity.sys "4") "id-0"
     (Trinity.voted v1 v2 v3)).2.

Definition read (s : MemStorage) : list Decision :=
  match getDecision s "id-0" with Some d => [d] | None => [] end.

(** One decision approved by all, one without majority, one still pending. *)
Definition listing : list Decision :=
  read (decided approve approve approve)
  ++ read (decided reject abstain abstain)
  ++ read Trinity.two_voted.

End Board.

(** ** Another configuration: five voters *)

Module Council.

Definition AI_MODELS : list string := ["grok"; "chatgpt"; "claude"; "deepseek"; "qwen"].

Definition AI_MODEL_ROLES : gmap string string :=
  <["grok" := "Grok"]> (<["chatgpt" := "ChatGPT"]> (<["claude" := "Claude"]>
    (<["deepseek" := "DeepSeek"]> (<["qwen" := "Qwen"]> ∅)))).

(** Decision ["id-0"] with two approvals and three rejections on file. *)
Definition voted : MemStorage :=
  submitAll AI_MODELS
    [(Trinity.sys "1", Trinity.submission "grok" approve None);
     (Trinity.sys "2", Trinity.submission "chatgpt" approve None);
     (Trinity.sys "3", Trinity.submission "claude" reject None);
     (Trinity.sys "4", Trinity.submission "deepseek" reject None);
     (Trinity.sys "5", Trinity.submission "qwen" reject None)]
    Trinity.created.

End Council.

(** ** Facts about the list operations *)

Section ListFacts.

Lemma findIndex_Some {A} (p : A → bool) (l : list A) (i : nat) :
  findIndex p l = Some i → ∃ x, l !! i = Some x ∧ p x = true.
Proof.
  revert i. induction l as [|a l IH]; intros i; simpl; [done|].
  destruct (p a) eqn:Hp.
  - intros [= <-]. eauto.
  - destruct (findIndex p l) as [j|]; simpl; [|done].
    intros [= <-]. destruct (IH j eq_refl) as (x & ? & ?). eauto.
Qed.

Lemma findIndex_None {A} (p : A → bool) (l : list A) :
  findIndex p l = None → ∀ x, x ∈ l → p x = false.
Proof.
  induction l as [|a l IH]; simpl; intros Hf x Hx.
  - by apply elem_of_nil in Hx.
  - destruct (p a) eqn:Hp; [done|].
    destruct (findIndex p l); [done|].
    apply elem_of_cons in Hx as [->|Hx]; auto.
Qed.

(** With one response per voter, [findIndex] finds the slot of the voter. *)
Lemma findIndex_voter (rs : list AIResponse) (i : nat) (r : AIResponse) (m : string) :
  NoDup (model <$> rs) → rs !! i = Some r → model r = m →
  findIndex (λ x, String.eqb (model x) m) rs = Some i.
Proof.
  revert i. induction rs as [|a rs IH]; intros i Hnd Hi Hm; [done|].
  rewrite fmap_cons in Hnd. apply NoDup_cons in Hnd as [Hnotin Hnd].
  destruct i as [|i]; simpl in *.
  - injection Hi as ->. by rewrite (proj2 (String.eqb_eq _ _) Hm).
  - destruct (String.eqb (model a) m) eqn:Ha.
    + apply String.eqb_eq in Ha. exfalso. apply Hnotin.
      apply list_elem_of_fmap. exists r. split; [congruence|].
      by eapply list_elem_of_lookup_2.
    + by rewrite (IH i Hnd Hi Hm).
Qed.

Lemma filter_none {A} (P : A → Prop) `{∀ x, base.Decision (P x)} (l : list A) :
  (∀ x, x ∈ l → ¬ P x) → filter P l = [].
Proof.
  induction l as [|a l IH]; intros Hl; [done|].
  rewrite filter_cons_False by (apply Hl; left).
  apply IH. intros x Hx. apply Hl. by right.
Qed.

Lemma filter_voter (rs : list AIResponse) (i : nat) (r : AIResponse) :
  NoDup (model <$> rs) → rs !! i = Some r →
  filter (λ x, model x = model r) rs = [r].
Proof.
  revert i. induction rs as [|a rs IH]; intros i Hnd Hi; [done|].
  rewrite fmap_cons in Hnd. apply NoDup_cons in Hnd as [Hnotin Hnd].
  destruct i as [|i]; simpl in Hi.
  - injection Hi as ->. rewrite filter_cons_True by done. f_equal.
    apply filter_none. intros x Hin Hx. apply Hnotin.
    apply list_elem_of_fmap. eauto.
  - rewrite filter_cons_False; [by eapply IH|].
    intros Ha. apply Hnotin. apply list_elem_of_fmap. exists r.
    split; [done|]. by eapply list_elem_of_lookup_2.
Qed.

(** The voters of a response list after [upsert]: unchanged when the voter
    had a response, extended by the voter otherwise. *)
Lemma upsert_voters (r : AIResponse) (rs : list AIResponse) :
  (model r ∈ (model <$> rs) ∧ (model <$> upsert r rs) = (model <$> rs))
  ∨ ((model r ∉ (model <$> rs)) ∧ (model <$> upsert r rs) = (model <$> rs) ++ [model r]).
Proof.
  unfold upsert.
  destruct (findIndex _ rs) as [i|] eqn:Hf.
  - left. apply findIndex_Some in Hf as (x & Hi & Hx).
    apply String.eqb_eq in Hx. split.
    + rewrite <- Hx. apply list_elem_of_fmap. exists x. split; [done|].
      by eapply list_elem_of_lookup_2.
    + rewrite list_fmap_insert. apply list_insert_id.
      by rewrite list_lookup_fmap, Hi, <- Hx.
  - right. split.
    + intros (x & Hx & Hin)%list_elem_of_fmap.
      pose proof (findIndex_None _ _ Hf x Hin) as Hp. simpl in Hp.
      apply String.eqb_neq in Hp. congruence.
    + by rewrite fmap_app.
Qed.

Lemma upsert_NoDup (r : AIResponse) (rs : list AIResponse) :
  NoDup (model <$> rs) → NoDup (model <$> upsert r rs).
Proof.
  intros Hnd. destruct (upsert_voters r rs) as [[_ ->]|[Hnotin ->]]; [done|].
  apply NoDup_app. split_and!; [done| |apply NoDup_singleton].
  intros x Hx ->%list_elem_of_singleton. done.
Qed.

(** The response is on file after [upsert]. *)
Lemma upsert_elem (r : AIResponse) (rs : list AIResponse) :
  ∃ i, upsert r rs !! i = Some r.
Proof.
  unfold upsert. destruct (findIndex _ rs) as [i|] eqn:Hf.
  - exists i. apply findIndex_Some in Hf as (x & Hi & _).
    apply list_lookup_insert_eq. by eapply lookup_lt_Some.
  - exists (length rs). by rewrite lookup_app_r, Nat.sub_diag.
Qed.

(** [foldl set_add] from any set of strings already seen. *)
Lemma foldl_set_add (items seen : list string) :
  foldl set_add seen items = seen ++ filter (λ y, y ∉ seen) (keep_first items).
Proof.
  revert seen. induction items as [|x items IH]; intros seen; simpl.
  - by rewrite filter_nil, app_nil_r.
  - rewrite IH. unfold set_add. case_bool_decide as Hx.
    + rewrite filter_cons_False by tauto. f_equal.
      rewrite list_filter_filter. apply list_filter_iff.
      intros y. split; [|tauto]. intros Hy. split; [done|]. congruence.
    + rewrite filter_cons_True by done. rewrite <- app_assoc. simpl. do 2 f_equal.
      rewrite list_filter_filter. apply list_filter_iff.
      intros y. rewrite elem_of_app, list_elem_of_singleton. tauto.
Qed.

Lemma array_from_set_keep_first (items : list string) :
  array_from_set items = keep_first items.
Proof.
  unfold array_from_set. rewrite foldl_set_add. simpl.
  induction (keep_first items) as [|x l IH]; [done|].
  rewrite filter_cons_True; [by rewrite IH|]. apply not_elem_of_nil.
Qed.

Lemma keep_first_elem (l : list string) (x : string) :
  x ∈ keep_first l ↔ x ∈ l.
Proof.
  induction l as [|a l IH]; simpl; [done|].
  rewrite !elem_of_cons, list_elem_of_filter, IH.
  destruct (decide (x = a)); tauto.
Qed.

Lemma keep_first_NoDup (l : list string) : NoDup (keep_first l).
Proof.
  induction l as [|a l IH]; simpl; [apply NoDup_nil_2|].
  apply NoDup_cons. split; [|by apply NoDup_filter].
  rewrite list_elem_of_filter. tauto.
Qed.

(** What was seen first stays in front: the result for a prefix of the items
    is a prefix of the result for all of them. *)
Lemma keep_first_prefix (l1 l2 : list string) :
  keep_first l1 `prefix_of` keep_first (l1 ++ l2).
Proof.
  rewrite <- !array_from_set_keep_first. unfold array_from_set.
  rewrite foldl_app, (foldl_set_add l2). by eexists.
Qed.

Lemma count_vote_total (rs : list AIResponse) :
  count_vote approve rs + count_vote reject rs + count_vote abstain rs = length rs.
Proof.
  unfold count_vote. induction rs as [|r rs IH]; [done|].
  rewrite !filter_cons. destruct (vote r); repeat case_decide; try done; simpl; lia.
Qed.

Lemma count_vote_all (v : Vote) (rs : list AIResponse) :
  count_vote v rs = length rs ↔ ∀ r, r ∈ rs → vote r = v.
Proof.
  unfold count_vote. induction rs as [|r rs IH]; simpl.
  - split; [|done]. intros _ r Hr. by apply elem_of_nil in Hr.
  - rewrite filter_cons. pose proof (length_filter (λ r, vote r = v) rs) as Hle.
    case_decide as Hv; simpl.
    + split.
      * intros Hl r' [->|Hr']%elem_of_cons; [done|]. apply IH; [lia|done].
      * intros Hall. f_equal. apply IH. intros r' Hr'. apply Hall. by right.
    + split; [lia|]. intros Hall. exfalso. apply Hv, Hall. by left.
Qed.

Lemma majority_threshold_spec (n k : nat) :
  majority_threshold n ≤ k ↔ n < 2 * k.
Proof.
  unfold majority_threshold.
  pose proof (Nat.div_mod_eq (n + 1 + 1) 2) as Hd.
  pose proof (Nat.mod_upper_bound (n + 1 + 1) 2) as Hm. lia.
Qed.

End ListFacts.

(** ** Properties of the store and of the endpoints *)

Section Properties.

Variable AI_MODELS : list string.
Variable AI_MODEL_ROLES : gmap string string.

Lemma existsb_voter (rs : list AIResponse) (m : string) :
  existsb (λ r, String.eqb (model r) m) rs = true ↔ m ∈ (model <$> rs).
Proof.
  rewrite existsb_exists, list_elem_of_fmap. split.
  - intros (r & Hin%list_elem_of_In & Heq%String.eqb_eq). eauto.
  - intros (r & -> & Hin). exists r. split; [by apply list_elem_of_In|].
    by apply String.eqb_eq.
Qed.

Lemma allResponded_spec (rs : list AIResponse) :
  allResponded AI_MODELS rs = true ↔ ∀ m, m ∈ AI_MODELS → m ∈ (model <$> rs).
Proof.
  unfold allResponded. rewrite forallb_forall. split.
  - intros H m Hm. apply existsb_voter, H. by apply list_elem_of_In.
  - intros H m Hm. apply existsb_voter, H. by apply list_elem_of_In.
Qed.

Lemma missing_spec (rs : list AIResponse) (m : string) :
  m ∈ missing AI_MODELS rs ↔ m ∈ AI_MODELS ∧ m ∉ (model <$> rs).
Proof.
  unfold missing. rewrite list_elem_of_In, filter_In, <- list_elem_of_In.
  rewrite negb_true_iff, <- not_true_iff_false, existsb_voter. done.
Qed.

Lemma complete_length (rs : list AIResponse) :
  NoDup AI_MODELS → complete AI_MODELS rs → length rs = length AI_MODELS.
Proof.
  intros Hnd (Hrs & Hsub & Hall).
  rewrite <- (length_fmap model rs). apply Permutation_length.
  apply NoDup_Permutation; [done..|]. intros m. split; [|by apply Hall].
  intros (r & -> & Hr)%list_elem_of_fmap. by apply Hsub.
Qed.

(** *** [addAIResponse] on the three maps *)

Lemma addAIResponse_result sys ins s :
  (addAIResponse AI_MODELS sys ins s).1 = stamp (randomUUID sys) (now sys) ins.
Proof. done. Qed.

Lemma addAIResponse_responses sys ins s :
  getAIResponses (addAIResponse AI_MODELS sys ins s).2 (ins_decisionId ins)
  = upsert (stamp (randomUUID sys) (now sys) ins)
      (getAIResponses s (ins_decisionId ins)).
Proof. unfold getAIResponses at 1. simpl. by rewrite lookup_insert_eq. Qed.

Lemma addAIResponse_responses_ne sys ins s id :
  id ≠ ins_decisionId ins →
  getAIResponses (addAIResponse AI_MODELS sys ins s).2 id = getAIResponses s id.
Proof. intros Hne. unfold getAIResponses. simpl. by rewrite lookup_insert_ne. Qed.

Lemma addAIResponse_consensuses sys ins s :
  consensuses (addAIResponse AI_MODELS sys ins s).2 = consensuses s.
Proof. done. Qed.

(** The decision a submission refers to, afterwards. *)
Lemma addAIResponse_decision sys ins s d :
  decisions s !! ins_decisionId ins = Some d →
  decisions (addAIResponse AI_MODELS sys ins s).2 !! ins_decisionId ins
  = Some (if allResponded AI_MODELS
               (getAIResponses (addAIResponse AI_MODELS sys ins s).2 (ins_decisionId ins))
             && bool_decide (status d = pending)
          then set_status deliberating (now' sys) d else d).
Proof.
  intros Hd. rewrite addAIResponse_responses. simpl. rewrite Hd.
  destruct (_ && _); [by rewrite lookup_insert_eq|done].
Qed.

(** Every other decision is left as it is. *)
Lemma addAIResponse_decision_ne sys ins s id :
  id ≠ ins_decisionId ins →
  decisions (addAIResponse AI_MODELS sys ins s).2 !! id = decisions s !! id.
Proof.
  intros Hne. simpl. destruct (decisions s !! ins_decisionId ins); [|done].
  destruct (_ && _); [by rewrite lookup_insert_ne|done].
Qed.

(** A submission never creates and never removes a decision. *)
Lemma addAIResponse_decision_None sys ins s id :
  decisions s !! id = None →
  decisions (addAIResponse AI_MODELS sys ins s).2 !! id = None.
Proof.
  intros Hn. destruct (decide (id = ins_decisionId ins)) as [->|Hne].
  - simpl. by rewrite Hn.
  - by rewrite addAIResponse_decision_ne.
Qed.

(** *** The one-response-per-voter invariant *)

Lemma unique_voters_new : unique_voters newMemStorage.
Proof. intros id. unfold getAIResponses. simpl. rewrite lookup_empty. apply NoDup_nil_2. Qed.

Lemma unique_voters_add sys ins s :
  unique_voters s → unique_voters (addAIResponse AI_MODELS sys ins s).2.
Proof.
  intros Hs id. destruct (decide (id = ins_decisionId ins)) as [->|Hne].
  - rewrite addAIResponse_responses. apply upsert_NoDup, Hs.
  - rewrite addAIResponse_responses_ne by done. apply Hs.
Qed.

Lemma unique_voters_step s s' :
  step AI_MODELS s s' → unique_voters s → unique_voters s'.
Proof.
  intros Hstep Hs. destruct Hstep as [sys ins s|sys id u s|id s|sys ins s|sys id cd s].
  - intros id. unfold getAIResponses. simpl.
    destruct (decide (id = randomUUID sys)) as [->|Hne].
    + rewrite lookup_insert_eq. apply NoDup_nil_2.
    + rewrite lookup_insert_ne by done. apply Hs.
  - unfold updateDecision. destruct (decisions s !! id); [|done].
    intros id'. apply Hs.
  - intros id'. unfold getAIResponses. simpl.
    destruct (decide (id' = id)) as [->|Hne].
    + rewrite lookup_delete_eq. apply NoDup_nil_2.
    + rewrite lookup_delete_ne by done. apply Hs.
  - by apply unique_voters_add.
  - unfold setConsensus. destruct (decisions s !! id); [|done].
    intros id'. apply Hs.
Qed.

Lemma unique_voters_reachable s :
  reachable AI_MODELS s → unique_voters s.
Proof.
  unfold reachable. intros Hr.
  eapply (rtc_ind_r (λ t, unique_voters t)); [apply unique_voters_new| |exact Hr].
  intros y z _ Hstep Hy. by eapply unique_voters_step.
Qed.

Lemma unique_voters_submitAll subs s :
  unique_voters s → unique_voters (submitAll AI_MODELS subs s).
Proof.
  revert s. induction subs as [|[sys ins] subs IH]; intros s Hs; [done|].
  apply IH. by apply unique_voters_add.
Qed.

Lemma reachable_submitAll subs s :
  reachable AI_MODELS s → reachable AI_MODELS (submitAll AI_MODELS subs s).
Proof.
  revert s. induction subs as [|[sys ins] subs IH]; intros s Hs; [done|].
  apply IH. eapply rtc_r; [exact Hs|]. apply step_add.
Qed.

(** A decision that is no longer [pending] is not touched by submissions. *)
Lemma addAIResponse_settled sys ins s id d :
  decisions s !! id = Some d → status d ≠ pending →
  decisions (addAIResponse AI_MODELS sys ins s).2 !! id = Some d.
Proof.
  intros Hd Hst. destruct (decide (id = ins_decisionId ins)) as [->|Hne].
  - rewrite (addAIResponse_decision _ _ _ _ Hd).
    rewrite bool_decide_eq_false_2 by done. by rewrite andb_false_r.
  - by rewrite addAIResponse_decision_ne.
Qed.

Lemma submitAll_settled subs s id d :
  decisions s !! id = Some d → status d ≠ pending →
  decisions (submitAll AI_MODELS subs s) !! id = Some d.
Proof.
  revert s. induction subs as [|[sys ins] subs IH]; intros s Hd Hst; [done|].
  simpl. apply IH; [|done]. by apply addAIResponse_settled.
Qed.

(** *** The consensus endpoint *)

Lemma calc_synthesizedReasoning_is_Some (rs : list AIResponse) :
  (∀ r, r ∈ rs → is_Some (AI_MODEL_ROLES !! model r)) →
  is_Some (calc_synthesizedReasoning AI_MODEL_ROLES rs).
Proof.
  intros Hroles. unfold calc_synthesizedReasoning. apply fmap_is_Some.
  apply mapM_is_Some, Forall_forall. intros r Hr. simpl.
  unfold reasoning_line, role_name. by destruct (Hroles r Hr) as [name ->].
Qed.

(** With every required voter on file the endpoint answers 201 and stores
    the consensus it answers with. *)
Lemma postConsensus_created sys id s d :
  decisions s !! id = Some d →
  allResponded AI_MODELS (getAIResponses s id) = true →
  (∀ r, r ∈ getAIResponses s id → is_Some (AI_MODEL_ROLES !! model r)) →
  ∃ text,
    calc_synthesizedReasoning AI_MODEL_ROLES (getAIResponses s id) = Some text
    ∧ postConsensus AI_MODELS AI_MODEL_ROLES sys id s
      = (reply_json 201
           (Some (stamp_consensus (randomUUID sys) id (now sys)
                    (payload (getAIResponses s id) text))),
         (setConsensus sys id (payload (getAIResponses s id) text) s).2).
Proof.
  intros Hd Hall Hroles.
  destruct (calc_synthesizedReasoning_is_Some _ Hroles) as [text Htext].
  exists text. split; [done|].
  unfold postConsensus, getDecision. rewrite Hd, Hall, Htext. simpl.
  unfold setConsensus, payload. by rewrite Hd.
Qed.

(** Every consensus the endpoint answers with was computed from the
    responses on file, all required voters among them, and is stored. *)
Lemma postConsensus_inv sys id s c s' :
  postConsensus AI_MODELS AI_MODEL_ROLES sys id s = (reply_json 201 (Some c), s') →
  allResponded AI_MODELS (getAIResponses s id) = true
  ∧ outcome c = calc_outcome (calc_voteSummary (getAIResponses s id))
  ∧ unanimity c = calc_unanimity (calc_voteSummary (getAIResponses s id))
  ∧ voteSummary c = calc_voteSummary (getAIResponses s id)
  ∧ actionItems c = calc_actionItems (getAIResponses s id)
  ∧ getConsensus s' id = Some c.
Proof.
  unfold postConsensus, getDecision.
  destruct (decisions s !! id) as [d|] eqn:Hd; [|done].
  destruct (allResponded _ _) eqn:Hall; simpl; [|done].
  destruct (calc_synthesizedReasoning _ _) as [text|]; [|done].
  unfold setConsensus. rewrite Hd. intros [= <- <-]. simpl.
  split_and!; try done. unfold getConsensus. simpl. by rewrite lookup_insert_eq.
Qed.

Lemma calc_actionItems_keep_first (rs : list AIResponse) :
  calc_actionItems rs
  = match keep_first (flat_map (λ r, default [] (recommendations r)) rs) with
    | [] => None
    | items => Some items
    end.
Proof.
  unfold calc_actionItems, uniqueActionItems, allActionItems.
  rewrite array_from_set_keep_first.
  destruct (keep_first _); [done|]. rewrite bool_decide_eq_true_2; [done|simpl; lia].
Qed.

Lemma calc_unanimity_true (rs : list AIResponse) :
  calc_unanimity (calc_voteSummary rs) = true
  ↔ count_vote approve rs = 3 ∨ count_vote reject rs = 3.
Proof.
  unfold calc_unanimity. simpl.
  rewrite orb_true_iff, !bool_decide_eq_true. done.
Qed.

Lemma calc_outcome_cases (rs : list AIResponse) :
  (calc_outcome (calc_voteSummary rs) = approved ↔ 2 ≤ count_vote approve rs)
  ∧ (calc_outcome (calc_voteSummary rs) = rejected
     ↔ count_vote approve rs < 2 ∧ 2 ≤ count_vote reject rs)
  ∧ (calc_outcome (calc_voteSummary rs) = needs_revision
     ↔ count_vote approve rs < 2 ∧ count_vote reject rs < 2).
Proof.
  unfold calc_outcome. simpl. repeat case_bool_decide; split_and!; split;
    try done; try lia; intros; lia.
Qed.

(** *** The store *)

(** C3. In every store the singleton can be in, whatever operations led
    there, a decision's response list has at most one response per voter.
    A submission is on file once [addAIResponse] returns; and when its voter
    already had a response, in slot [i], the list afterwards is the old list
    with slot [i] overwritten: the new response sits in slot [i], is the only
    response of that voter, and is the submission stamped with the id and the
    time drawn by this call. *)
Theorem C3_one_response_per_voter :
  (∀ s id, reachable AI_MODELS s → NoDup (model <$> getAIResponses s id))
  ∧ (∀ s sys ins, ∃ i,
       getAIResponses (addAIResponse AI_MODELS sys ins s).2 (ins_decisionId ins) !! i
       = Some (addAIResponse AI_MODELS sys ins s).1)
  ∧ (∀ s sys ins i r1,
       reachable AI_MODELS s →
       getAIResponses s (ins_decisionId ins) !! i = Some r1 →
       model r1 = ins_model ins →
       let r2 := (addAIResponse AI_MODELS sys ins s).1 in
       let rs' := getAIResponses (addAIResponse AI_MODELS sys ins s).2 (ins_decisionId ins) in
       rs' = <[i := r2]> (getAIResponses s (ins_decisionId ins))
       ∧ rs' !! i = Some r2
       ∧ length rs' = length (getAIResponses s (ins_decisionId ins))
       ∧ filter (λ r, model r = ins_model ins) rs' = [r2]
       ∧ r2 = stamp (randomUUID sys) (now sys) ins
       ∧ r_id r2 = randomUUID sys ∧ r_createdAt r2 = now sys
       ∧ vote r2 = ins_vote ins ∧ reasoning r2 = ins_reasoning ins
       ∧ confidence r2 = ins_confidence ins ∧ risks r2 = ins_risks ins
       ∧ recommendations r2 = ins_recommendations ins).
Proof.
  split_and!.
  - intros s id Hr. by apply unique_voters_reachable.
  - intros s sys ins. rewrite addAIResponse_responses, addAIResponse_result.
    apply upsert_elem.
  - intros s sys ins i r1 Hr Hi Hm r2 rs'.
    pose proof (unique_voters_reachable _ Hr (ins_decisionId ins)) as Hnd.
    assert (Hrs' : rs' = <[i := r2]> (getAIResponses s (ins_decisionId ins))).
    { unfold rs'. rewrite addAIResponse_responses. unfold upsert.
      by rewrite (findIndex_voter _ i r1 (model (stamp (randomUUID sys) (now sys) ins))
                    Hnd Hi Hm). }
    assert (Hlt : i < length (getAIResponses s (ins_decisionId ins)))
      by (by eapply lookup_lt_Some).
    assert (Hi' : rs' !! i = Some r2)
      by (rewrite Hrs'; by apply list_lookup_insert_eq).
    split_and!; try done.
    + rewrite Hrs'. apply length_insert.
    + change (ins_model ins) with (model r2). apply (filter_voter rs' i); [|done].
      rewrite Hrs', list_fmap_insert, list_insert_id; [done|].
      rewrite list_lookup_fmap, Hi. simpl. by rewrite Hm.
Qed.

(** C4. A submission for an existing decision advances its status from
    [pending] to [deliberating] exactly when, after the write, every required
    voter is represented and the status was [pending]; otherwise the decision
    is left as it was.  A decision that is no longer [pending] stays, through
    any sequence of submissions, the very same record: its status does not go
    back to [pending] and the advance, with its refresh of [updatedAt], does
    not happen again. *)
Theorem C4_status_advance :
  (∀ sys ins s d,
     decisions s !! ins_decisionId ins = Some d →
     let s' := (addAIResponse AI_MODELS sys ins s).2 in
     let represented :=
       ∀ m, m ∈ AI_MODELS → m ∈ (model <$> getAIResponses s' (ins_decisionId ins)) in
     ∃ d', decisions s' !! ins_decisionId ins = Some d'
       ∧ ((status d = pending ∧ status d' = deliberating)
          ↔ (represented ∧ status d = pending))
       ∧ (represented ∧ status d = pending →
          d' = set_status deliberating (now' sys) d)
       ∧ (¬ (represented ∧ status d = pending) → d' = d))
  ∧ (∀ subs s id d,
       decisions s !! id = Some d → status d ≠ pending →
       decisions (submitAll AI_MODELS subs s) !! id = Some d).
Proof.
  split.
  - intros sys ins s d Hd s' represented.
    pose proof (addAIResponse_decision sys ins s d Hd) as Hd'. fold s' in Hd'.
    pose proof (allResponded_spec (getAIResponses s' (ins_decisionId ins))) as Hall.
    fold represented in Hall.
    destruct (allResponded _ _) eqn:Hb; simpl in Hd'.
    + case_bool_decide as Hst; eexists; (split; [exact Hd'|]).
      * split_and!; [|done|]; [simpl; tauto|]. intros []. split; [tauto|done].
      * split_and!; [tauto|tauto|done].
    + eexists; split; [exact Hd'|].
      assert (¬ represented) by (rewrite <- Hall; congruence).
      split_and!; [|tauto|done]. split; [|tauto]. intros [Hp Hdl]. congruence.
  - intros subs s id d. apply submitAll_settled.
Qed.

(** C6. For an existing decision [setConsensus] stores the consensus,
    overwriting any earlier one, under the id and the time drawn by this call
    and with the outcome, unanimity, tally, narrative and action items it was
    handed; it sets the status to [consensus_reached] whatever responses are
    on file, and refreshes [updatedAt]; the other decisions and their
    consensus are left as they are.  For an unknown id it returns nothing and
    leaves the store as it was. *)
Theorem C6_setConsensus (sys : Sys) (id : string) (cd : ConsensusData) (s : MemStorage) :
  (∀ d, decisions s !! id = Some d →
     ∃ c d' s',
       setConsensus sys id cd s = (Some c, s')
       ∧ c = stamp_consensus (randomUUID sys) id (now sys) cd
       ∧ c_id c = randomUUID sys ∧ c_createdAt c = now sys ∧ c_decisionId c = id
       ∧ getConsensus s' id = Some c
       ∧ decisions s' !! id = Some d'
       ∧ status d' = consensus_reached ∧ updatedAt d' = now' sys
       ∧ d' = set_status consensus_reached (now' sys) d
       ∧ aiResponses s' = aiResponses s
       ∧ outcome c = cd_outcome cd
       ∧ unanimity c = cd_unanimity cd
       ∧ voteSummary c = cd_voteSummary cd
       ∧ synthesizedReasoning c = cd_synthesizedReasoning cd
       ∧ actionItems c = cd_actionItems cd
       ∧ (∀ id', id' ≠ id →
            getConsensus s' id' = getConsensus s id'
            ∧ decisions s' !! id' = decisions s !! id'))
  ∧ (decisions s !! id = None → setConsensus sys id cd s = (None, s)).
Proof.
  unfold setConsensus, getConsensus. split.
  - intros d ->. do 3 eexists. split; [reflexivity|]. simpl.
    rewrite !lookup_insert_eq. split_and!; try done.
    intros id' Hne. by rewrite !lookup_insert_ne.
  - by intros ->.
Qed.

(** C8. [deleteDecision] removes the decision together with its responses
    and its consensus, and returns whether the decision existed; afterwards
    the id has no decision, no consensus and no responses, and the responses
    endpoint answers not-found. *)
Theorem C8_delete_cascades (id : string) (s : MemStorage) :
  let existed := (deleteDecision id s).1 in
  let s' := (deleteDecision id s).2 in
  (existed = true ↔ is_Some (decisions s !! id))
  ∧ decisions s' !! id = None
  ∧ aiResponses s' !! id = None
  ∧ consensuses s' !! id = None
  ∧ getDecision s' id = None
  ∧ getConsensus s' id = None
  ∧ getAIResponses s' id = []
  ∧ listResponses id s' = reply_error 404 (error_only "Decision not found").
Proof.
  unfold listResponses, getDecision, getConsensus, getAIResponses. simpl.
  rewrite !lookup_delete_eq. split_and!; try done. apply bool_decide_eq_true.
Qed.

(** *** The endpoints *)

(** C5. When the decision exists and some required voter has no response on
    file, the consensus endpoint answers 400 with [responded], the voter of
    every response on file, and [missing], exactly the required voters
    without a response; the store is the one it was, so no consensus is
    created or overwritten and the decision keeps its status. *)
Theorem C5_incomplete_is_refused (sys : Sys) (id : string) (s : MemStorage)
    (d : Decision) (m : string) :
  decisions s !! id = Some d →
  m ∈ AI_MODELS → m ∉ (model <$> getAIResponses s id) →
  ∃ responded missing_voters s',
    postConsensus AI_MODELS AI_MODEL_ROLES sys id s
    = (reply_error 400
         (cannot_reach "Cannot reach consensus"
            "All three AI models must respond before consensus can be reached"
            responded missing_voters), s')
    ∧ s' = s
    ∧ responded = (model <$> getAIResponses s id)
    ∧ (∀ v, v ∈ responded ↔ ∃ r, r ∈ getAIResponses s id ∧ model r = v)
    ∧ (∀ v, v ∈ missing_voters ↔ v ∈ AI_MODELS ∧ v ∉ responded)
    ∧ m ∈ missing_voters
    ∧ getConsensus s' id = getConsensus s id
    ∧ getDecision s' id = getDecision s id.
Proof.
  intros Hd Hm Hnot.
  assert (Hall : allResponded AI_MODELS (getAIResponses s id) = false).
  { apply not_true_iff_false. rewrite allResponded_spec. intros H. by apply Hnot, H. }
  exists (model <$> getAIResponses s id), (missing AI_MODELS (getAIResponses s id)), s.
  split_and!; try done.
  - unfold postConsensus, getDecision. by rewrite Hd, Hall.
  - intros v. rewrite list_elem_of_fmap. split; intros (r & ? & ?); eauto.
  - intros v. apply missing_spec.
  - by apply missing_spec.
Qed.

(** C7, as the code has it.  The existence check is made by the endpoint:
    for an id without a decision [POST /api/decisions/:id/responses] answers
    404 and the store is left as it was, whatever the body.  The store method
    [addAIResponse] has no failure result. *)
Theorem C7_unknown_decision_not_found (sys : Sys) (id : string)
    (body : option InsertAIResponse) (s : MemStorage) :
  decisions s !! id = None →
  postResponse AI_MODELS sys id body s
  = (reply_error 404 (error_only "Decision not found"), s).
Proof. intros Hd. unfold postResponse, getDecision. by rewrite Hd. Qed.

(** C10. A consensus the endpoint answers with has, when its unanimity flag
    is set, the outcome [approved] or [rejected]: the flag requires three
    approvals or three rejections, and either meets the rule of its outcome.
    When every response on file abstains the flag is not set. *)
Theorem C10_unanimity_implies_decided (sys : Sys) (id : string) (s s' : MemStorage)
    (c : Consensus) :
  postConsensus AI_MODELS AI_MODEL_ROLES sys id s = (reply_json 201 (Some c), s') →
  (unanimity c = true → outcome c = approved ∨ outcome c = rejected)
  ∧ (unanimity c = true → outcome c ≠ needs_revision)
  ∧ ((∀ r, r ∈ getAIResponses s id → vote r = abstain) → unanimity c = false).
Proof.
  intros (_ & Ho & Hu & _)%postConsensus_inv.
  pose proof (calc_outcome_cases (getAIResponses s id)) as (Ha & Hr & Hn).
  pose proof (calc_unanimity_true (getAIResponses s id)) as Hun.
  rewrite Ho, Hu. split_and!.
  - intros H3%Hun.
    destruct (decide (2 ≤ count_vote approve (getAIResponses s id))).
    + left. by apply Ha.
    + right. apply Hr. lia.
  - intros H3%Hun Hrev%Hn. lia.
  - intros Habs. apply not_true_iff_false. intros H3%Hun.
    apply (count_vote_all abstain) in Habs.
    pose proof (count_vote_total (getAIResponses s id)). lia.
Qed.

Section KnownRoles.

(** Every required voter has an entry in [AI_MODEL_ROLES]. *)
Hypothesis roles_known : ∀ m, m ∈ AI_MODELS → is_Some (AI_MODEL_ROLES !! m).

Lemma postConsensus_complete sys id s d :
  decisions s !! id = Some d →
  complete AI_MODELS (getAIResponses s id) →
  ∃ c s',
    postConsensus AI_MODELS AI_MODEL_ROLES sys id s = (reply_json 201 (Some c), s')
    ∧ getConsensus s' id = Some c
    ∧ outcome c = calc_outcome (calc_voteSummary (getAIResponses s id))
    ∧ unanimity c = calc_unanimity (calc_voteSummary (getAIResponses s id))
    ∧ voteSummary c = calc_voteSummary (getAIResponses s id)
    ∧ actionItems c = calc_actionItems (getAIResponses s id).
Proof.
  intros Hd (Hnd & Hsub & Hall).
  destruct (postConsensus_created sys id s d Hd) as (text & _ & Hpost).
  { by apply allResponded_spec. }
  { intros r Hr. by apply roles_known, Hsub. }
  do 2 eexists. split; [exact Hpost|].
  apply postConsensus_inv in Hpost. tauto.
Qed.

(** C9. For a complete response set the consensus the endpoint stores has as
    action items the recommendation lists of the responses, an absent list
    counting as empty, concatenated in response order and reduced to the
    first occurrence of every string; when nothing remains the field is
    absent.  The reduced list has no duplicates, has the members of the
    concatenation, and what a prefix of the concatenation yields stays in
    front. *)
Theorem C9_action_items (sys : Sys) (id : string) (s : MemStorage) (d : Decision) :
  decisions s !! id = Some d →
  complete AI_MODELS (getAIResponses s id) →
  let all := flat_map (λ r, default [] (recommendations r)) (getAIResponses s id) in
  ∃ c s',
    postConsensus AI_MODELS AI_MODEL_ROLES sys id s = (reply_json 201 (Some c), s')
    ∧ getConsensus s' id = Some c
    ∧ actionItems c = match keep_first all with [] => None | items => Some items end
    ∧ NoDup (keep_first all)
    ∧ (∀ x, x ∈ keep_first all ↔ x ∈ all)
    ∧ (∀ l1 l2, all = l1 ++ l2 → keep_first l1 `prefix_of` keep_first all).
Proof.
  intros Hd Hc all.
  destruct (postConsensus_complete sys id s d Hd Hc) as (c & s' & Hpost & Hget & _ & _ & _ & Hitems).
  exists c, s'. split_and!; try done.
  - rewrite Hitems. apply calc_actionItems_keep_first.
  - apply keep_first_NoDup.
  - intros x. apply keep_first_elem.
  - intros l1 l2 ->. apply keep_first_prefix.
Qed.

Section ThreeVoters.

(** The required voters are distinct, and there are three of them: the
    endpoint is documented to require "all three AI models", and its rules
    are written with the counts 2 and 3. *)
Hypothesis voters_distinct : NoDup AI_MODELS.
Hypothesis three_voters : length AI_MODELS = 3.

(** C1, as the code has it.  With three required voters, [n = 3], for a
    complete response set the consensus the endpoint stores is [approved] iff
    the approvals reach the majority threshold of [n]; [rejected] iff they do
    not and the rejections reach it; [needs_revision] iff neither count
    reaches it.  The three counts add up to [n]. *)
Theorem C1_outcome_by_majority (sys : Sys) (id : string) (s : MemStorage) (d : Decision) :
  decisions s !! id = Some d →
  complete AI_MODELS (getAIResponses s id) →
  let rs := getAIResponses s id in
  let n := length AI_MODELS in
  ∃ c s',
    postConsensus AI_MODELS AI_MODEL_ROLES sys id s = (reply_json 201 (Some c), s')
    ∧ getConsensus s' id = Some c
    ∧ voteSummary c
      = {| vs_approve := count_vote approve rs; vs_reject := count_vote reject rs;
           vs_abstain := count_vote abstain rs |}
    ∧ count_vote approve rs + count_vote reject rs + count_vote abstain rs = n
    ∧ (outcome c = approved ↔ majority_threshold n ≤ count_vote approve rs)
    ∧ (outcome c = rejected
       ↔ count_vote approve rs < majority_threshold n
         ∧ majority_threshold n ≤ count_vote reject rs)
    ∧ (outcome c = needs_revision
       ↔ count_vote approve rs < majority_threshold n
         ∧ count_vote reject rs < majority_threshold n).
Proof.
  intros Hd Hc rs n.
  destruct (postConsensus_complete sys id s d Hd Hc) as (c & s' & Hpost & Hget & Ho & _ & Hvs & _).
  exists c, s'. fold rs in Ho, Hvs.
  assert (Hthr : majority_threshold n = 2) by (unfold n; by rewrite three_voters).
  pose proof (calc_outcome_cases rs) as (Ha & Hr & Hn).
  rewrite Hthr, Ho. split_and!; try done.
  rewrite count_vote_total. by apply complete_length.
Qed.

(** C2, as the code has it.  For a complete response set the unanimity flag
    of the stored consensus is set iff every response approves or every
    response rejects.  When every response abstains the flag is not set, and
    the outcome is [needs_revision]. *)
Theorem C2_unanimity_approve_or_reject (sys : Sys) (id : string) (s : MemStorage)
    (d : Decision) :
  decisions s !! id = Some d →
  complete AI_MODELS (getAIResponses s id) →
  let rs := getAIResponses s id in
  ∃ c s',
    postConsensus AI_MODELS AI_MODEL_ROLES sys id s = (reply_json 201 (Some c), s')
    ∧ getConsensus s' id = Some c
    ∧ (unanimity c = true
       ↔ (∀ r, r ∈ rs → vote r = approve) ∨ (∀ r, r ∈ rs → vote r = reject))
    ∧ ((∀ r, r ∈ rs → vote r = abstain) →
       unanimity c = false ∧ outcome c = needs_revision).
Proof.
  intros Hd Hc rs.
  destruct (postConsensus_complete sys id s d Hd Hc) as (c & s' & Hpost & Hget & Ho & Hu & _).
  exists c, s'. fold rs in Ho, Hu.
  assert (Hlen : length rs = 3) by (rewrite <- three_voters; by apply complete_length).
  pose proof (calc_unanimity_true rs) as Hun. rewrite <- Hu in Hun.
  pose proof (calc_outcome_cases rs) as (_ & _ & Hn). rewrite <- Ho in Hn.
  pose proof (count_vote_total rs) as Htot.
  split_and!; try done.
  - rewrite Hun, <- !count_vote_all, Hlen. done.
  - intros Habs%count_vote_all. split.
    + apply not_true_iff_false. rewrite Hun. lia.
    + apply Hn. lia.
Qed.

End ThreeVoters.

End KnownRoles.

End Properties.

(** ** The theorems at work on the three-voter configuration *)

Lemma Trinity_voters_distinct : NoDup Trinity.AI_MODELS.
Proof. compute_done. Qed.

Lemma Trinity_roles_known m :
  m ∈ Trinity.AI_MODELS → is_Some (Trinity.AI_MODEL_ROLES !! m).
Proof.
  revert m. apply Forall_forall. compute_done.
Qed.

Lemma Trinity_voted_complete v1 v2 v3 :
  complete Trinity.AI_MODELS (getAIResponses (Trinity.voted v1 v2 v3) "id-0").
Proof.
  split_and!.
  - compute_done.
  - apply Forall_forall. compute_done.
  - apply Forall_forall. compute_done.
Qed.

Lemma Trinity_voted_decision v1 v2 v3 :
  decisions (Trinity.voted v1 v2 v3) !! "id-0" = Some (Trinity.decision deliberating "U3").
Proof. vm_compute. reflexivity. Qed.

Lemma Trinity_created_reachable : reachable Trinity.AI_MODELS Trinity.created.
Proof. eapply rtc_r; [apply rtc_refl|]. apply step_create. Qed.

Lemma Trinity_voted_reachable v1 v2 v3 :
  reachable Trinity.AI_MODELS (Trinity.voted v1 v2 v3).
Proof. apply reachable_submitAll, Trinity_created_reachable. Qed.

Lemma C1_witness :
  let s := Trinity.voted approve approve reject in
  decisions s !! "id-0" = Some (Trinity.decision deliberating "U3")
  ∧ complete Trinity.AI_MODELS (getAIResponses s "id-0")
  ∧ ∃ c s',
      postConsensus Trinity.AI_MODELS Trinity.AI_MODEL_ROLES (Trinity.sys "4") "id-0" s
      = (reply_json 201 (Some c), s')
      ∧ voteSummary c = {| vs_approve := 2; vs_reject := 1; vs_abstain := 0 |}
      ∧ outcome c = approved.
Proof.
  intros s.
  pose proof (Trinity_voted_decision approve approve reject) as Hd.
  pose proof (Trinity_voted_complete approve approve reject) as Hc.
  split_and!; [exact Hd|exact Hc|].
  destruct (C1_outcome_by_majority Trinity.AI_MODELS Trinity.AI_MODEL_ROLES
              Trinity_roles_known Trinity_voters_distinct eq_refl
              (Trinity.sys "4") "id-0" s _ Hd Hc)
    as (c & s' & Hpost & _ & Hvs & _ & Happroved & _).
  exists c, s'. split_and!; [exact Hpost|exact Hvs|].
  apply Happroved. vm_compute. lia.
Defined.

(** C1 as stated fails: with five required voters the majority threshold is
    three, and two approvals against three rejections are [approved]. *)
Lemma C1_two_of_five_approved :
  let rs := getAIResponses Council.voted "id-0" in
  complete Council.AI_MODELS rs
  ∧ length Council.AI_MODELS = 5
  ∧ majority_threshold 5 = 3
  ∧ count_vote approve rs = 2
  ∧ count_vote reject rs = 3
  ∧ match (postConsensus Council.AI_MODELS Council.AI_MODEL_ROLES
             (Trinity.sys "6") "id-0" Council.voted).1 with
    | reply_json 201 (Some c) => outcome c = approved
    | _ => False
    end.
Proof.
  intros rs. split_and!; try (vm_compute; reflexivity).
  split_and!.
  - compute_done.
  - apply Forall_forall. compute_done.
  - apply Forall_forall. compute_done.
Qed.

(** C2 as stated fails: three abstentions are one and the same vote, and the
    flag is not set. *)
Lemma C2_all_abstain_not_unanimous :
  let s := Trinity.voted abstain abstain abstain in
  complete Trinity.AI_MODELS (getAIResponses s "id-0")
  ∧ same_vote (getAIResponses s "id-0")
  ∧ match (postConsensus Trinity.AI_MODELS Trinity.AI_MODEL_ROLES
             (Trinity.sys "4") "id-0" s).1 with
    | reply_json 201 (Some c) => unanimity c = false ∧ outcome c = needs_revision
    | _ => False
    end.
Proof.
  intros s. split_and!.
  - apply Trinity_voted_complete.
  - assert (Hall : Forall (λ r, vote r = abstain) (getAIResponses s "id-0"))
      by compute_done.
    intros r r' Hr Hr'. rewrite Forall_forall in Hall.
    by rewrite (Hall r Hr), (Hall r' Hr').
  - vm_compute. done.
Qed.

Lemma C2_witness :
  let s := Trinity.voted reject reject reject in
  decisions s !! "id-0" = Some (Trinity.decision deliberating "U3")
  ∧ complete Trinity.AI_MODELS (getAIResponses s "id-0")
  ∧ ∃ c s',
      postConsensus Trinity.AI_MODELS Trinity.AI_MODEL_ROLES (Trinity.sys "4") "id-0" s
      = (reply_json 201 (Some c), s')
      ∧ unanimity c = true.
Proof.
  intros s.
  pose proof (Trinity_voted_decision reject reject reject) as Hd.
  pose proof (Trinity_voted_complete reject reject reject) as Hc.
  split_and!; [exact Hd|exact Hc|].
  destruct (C2_unanimity_approve_or_reject Trinity.AI_MODELS Trinity.AI_MODEL_ROLES
              Trinity_roles_known Trinity_voters_distinct eq_refl
              (Trinity.sys "4") "id-0" s _ Hd Hc)
    as (c & s' & Hpost & _ & Hun & _).
  exists c, s'. split; [exact Hpost|].
  apply Hun. right. apply Forall_forall. compute_done.
Defined.

Lemma C3_witness :
  let s := Trinity.voted approve approve reject in
  let after := addAIResponse Trinity.AI_MODELS (Trinity.sys "5") Trinity.grok_again s in
  reachable Trinity.AI_MODELS s
  ∧ getAIResponses s "id-0" !! 0 = Some (Trinity.grok_first approve)
  ∧ model (Trinity.grok_first approve) = ins_model Trinity.grok_again
  ∧ NoDup (model <$> getAIResponses after.2 "id-0")
  ∧ getAIResponses after.2 "id-0" !! 0 = Some (stamp "id-5" "T5" Trinity.grok_again)
  ∧ filter (λ r, model r = "grok") (getAIResponses after.2 "id-0")
    = [stamp "id-5" "T5" Trinity.grok_again].
Proof.
  intros s after.
  pose proof (Trinity_voted_reachable approve approve reject) as Hr.
  assert (H0 : getAIResponses s "id-0" !! 0 = Some (Trinity.grok_first approve))
    by (vm_compute; reflexivity).
  destruct (C3_one_response_per_voter Trinity.AI_MODELS) as (Hinv & _ & Hslot).
  destruct (Hslot s (Trinity.sys "5") Trinity.grok_again 0 _ Hr H0 eq_refl)
    as (_ & Hi & _ & Hone & Hr2 & _).
  split_and!; [exact Hr|exact H0|reflexivity| |exact Hi|exact Hone].
  apply Hinv. eapply rtc_r; [exact Hr|]. apply step_add.
Defined.

Lemma C4_witness :
  let s := Trinity.two_voted in
  let claude := Trinity.submission "claude" reject None in
  let s' := (addAIResponse Trinity.AI_MODELS (Trinity.sys "3") claude s).2 in
  decisions s !! "id-0" = Some (Trinity.decision pending "T0")
  ∧ decisions s' !! "id-0" = Some (Trinity.decision deliberating "U3")
  ∧ status (Trinity.decision deliberating "U3") ≠ pending
  ∧ decisions (submitAll Trinity.AI_MODELS [(Trinity.sys "5", Trinity.grok_again)] s') !! "id-0"
    = Some (Trinity.decision deliberating "U3").
Proof.
  intros s claude s'.
  assert (Hd : decisions s !! "id-0" = Some (Trinity.decision pending "T0"))
    by (vm_compute; reflexivity).
  destruct (C4_status_advance Trinity.AI_MODELS) as (Hadvance & Hsettled).
  destruct (Hadvance (Trinity.sys "3") claude s _ Hd) as (d' & Hd' & _ & Hthen & _).
  assert (Heq : d' = Trinity.decision deliberating "U3").
  { apply Hthen. split; [|reflexivity]. apply Forall_forall. compute_done. }
  rewrite Heq in Hd'. fold s' in Hd'.
  split_and!; [exact Hd|exact Hd'|discriminate|].
  apply Hsettled; [exact Hd'|discriminate].
Defined.

Lemma C5_witness :
  let s := Trinity.two_voted in
  decisions s !! "id-0" = Some (Trinity.decision pending "T0")
  ∧ "claude" ∈ Trinity.AI_MODELS
  ∧ ("claude" ∉ (model <$> getAIResponses s "id-0"))
  ∧ ∃ responded missing_voters,
      postConsensus Trinity.AI_MODELS Trinity.AI_MODEL_ROLES (Trinity.sys "4") "id-0" s
      = (reply_error 400
           (cannot_reach "Cannot reach consensus"
              "All three AI models must respond before consensus can be reached"
              responded missing_voters), s)
      ∧ responded = ["grok"; "chatgpt"]
      ∧ "claude" ∈ missing_voters.
Proof.
  intros s.
  assert (Hd : decisions s !! "id-0" = Some (Trinity.decision pending "T0"))
    by (vm_compute; reflexivity).
  assert (Hin : "claude" ∈ Trinity.AI_MODELS) by compute_done.
  assert (Hnot : "claude" ∉ (model <$> getAIResponses s "id-0")) by compute_done.
  split_and!; [exact Hd|exact Hin|exact Hnot|].
  destruct (C5_incomplete_is_refused Trinity.AI_MODELS Trinity.AI_MODEL_ROLES
              (Trinity.sys "4") "id-0" s _ "claude" Hd Hin Hnot)
    as (responded & missing_voters & s' & Hpost & -> & Hresp & _ & _ & Hmiss & _).
  exists responded, missing_voters. split_and!; [exact Hpost| |exact Hmiss].
  rewrite Hresp. vm_compute. reflexivity.
Defined.

Lemma C6_witness :
  let s := Trinity.two_voted in
  let cd := payload (getAIResponses s "id-0") "two approvals" in
  decisions s !! "id-0" = Some (Trinity.decision pending "T0")
  ∧ decisions s !! "id-9" = None
  ∧ (∃ c s',
       setConsensus (Trinity.sys "4") "id-0" cd s = (Some c, s')
       ∧ c_id c = "id-4" ∧ c_createdAt c = "T4"
       ∧ getConsensus s' "id-0" = Some c
       ∧ decisions s' !! "id-0" = Some (Trinity.decision consensus_reached "U4")
       ∧ outcome c = approved ∧ unanimity c = false
       ∧ voteSummary c = {| vs_approve := 2; vs_reject := 0; vs_abstain := 0 |}
       ∧ synthesizedReasoning c = "two approvals"
       ∧ actionItems c = None)
  ∧ setConsensus (Trinity.sys "4") "id-9" cd s = (None, s).
Proof.
  intros s cd.
  assert (Hd : decisions s !! "id-0" = Some (Trinity.decision pending "T0"))
    by (vm_compute; reflexivity).
  assert (Hn : decisions s !! "id-9" = None) by (vm_compute; reflexivity).
  split_and!; [exact Hd|exact Hn| |].
  - destruct (C6_setConsensus (Trinity.sys "4") "id-0" cd s) as (Hsome & _).
    destruct (Hsome _ Hd)
      as (c & d' & s' & Hset & _ & Hid & Ht & _ & Hget & Hd' & _ & _ & -> & _
          & Ho & Hu & Hvs & Htext & Hitems & _).
    exists c, s'.
    split_and!; [exact Hset|exact Hid|exact Ht|exact Hget|exact Hd'
                |exact Ho|exact Hu|exact Hvs|exact Htext|exact Hitems].
  - destruct (C6_setConsensus (Trinity.sys "4") "id-9" cd s) as (_ & Hnone).
    exact (Hnone Hn).
Defined.

(** C7 as stated fails: the store method returns the stamped response and
    records it for an id that has no decision. *)
Lemma C7_store_records_without_decision :
  let ins := Trinity.submission "grok" approve None in
  let after := addAIResponse Trinity.AI_MODELS (Trinity.sys "1") ins newMemStorage in
  decisions newMemStorage !! ins_decisionId ins = None
  ∧ after.1 = stamp "id-1" "T1" ins
  ∧ getAIResponses newMemStorage "id-0" = []
  ∧ getAIResponses after.2 "id-0" = [stamp "id-1" "T1" ins]
  ∧ after.2 ≠ newMemStorage.
Proof.
  intros ins after. split_and!; try (vm_compute; reflexivity).
  intros Heq. apply (f_equal (λ s, getAIResponses s "id-0")) in Heq.
  vm_compute in Heq. discriminate.
Qed.

Lemma C7_witness :
  decisions Trinity.created !! "id-9" = None
  ∧ postResponse Trinity.AI_MODELS (Trinity.sys "1") "id-9"
      (Some (Trinity.submission "grok" approve None)) Trinity.created
    = (reply_error 404 (error_only "Decision not found"), Trinity.created).
Proof.
  assert (Hn : decisions Trinity.created !! "id-9" = None) by (vm_compute; reflexivity).
  split; [exact Hn|].
  exact (C7_unknown_decision_not_found Trinity.AI_MODELS (Trinity.sys "1") "id-9" _ _ Hn).
Defined.

Lemma C8_witness :
  let s := Trinity.voted approve approve reject in
  (deleteDecision "id-0" s).1 = true
  ∧ getDecision (deleteDecision "id-0" s).2 "id-0" = None
  ∧ getAIResponses (deleteDecision "id-0" s).2 "id-0" = [].
Proof.
  intros s.
  destruct (C8_delete_cascades "id-0" s) as (Hex & _ & _ & _ & Hget & _ & Hrs & _).
  split_and!; [|exact Hget|exact Hrs].
  apply Hex. exists (Trinity.decision deliberating "U3").
  apply Trinity_voted_decision.
Defined.

Lemma C9_witness :
  let s := Trinity.voted approve approve reject in
  decisions s !! "id-0" = Some (Trinity.decision deliberating "U3")
  ∧ complete Trinity.AI_MODELS (getAIResponses s "id-0")
  ∧ ∃ c s',
      postConsensus Trinity.AI_MODELS Trinity.AI_MODEL_ROLES (Trinity.sys "4") "id-0" s
      = (reply_json 201 (Some c), s')
      ∧ actionItems c = Some ["use CSS variables"; "add tests"; "ship it"].
Proof.
  intros s.
  pose proof (Trinity_voted_decision approve approve reject) as Hd.
  pose proof (Trinity_voted_complete approve approve reject) as Hc.
  split_and!; [exact Hd|exact Hc|].
  destruct (C9_action_items Trinity.AI_MODELS Trinity.AI_MODEL_ROLES
              Trinity_roles_known (Trinity.sys "4") "id-0" s _ Hd Hc)
    as (c & s' & Hpost & _ & Hitems & _).
  exists c, s'. split; [exact Hpost|]. rewrite Hitems. vm_compute. reflexivity.
Defined.

Lemma C10_witness :
  let s := Trinity.voted approve approve approve in
  ∃ c s',
    postConsensus Trinity.AI_MODELS Trinity.AI_MODEL_ROLES (Trinity.sys "4") "id-0" s
    = (reply_json 201 (Some c), s')
    ∧ unanimity c = true
    ∧ (outcome c = approved ∨ outcome c = rejected).
Proof.
  intros s.
  destruct (postConsensus_created Trinity.AI_MODELS Trinity.AI_MODEL_ROLES
              (Trinity.sys "4") "id-0" s _
              (Trinity_voted_decision approve approve approve))
    as (text & _ & Hpost).
  { vm_compute. reflexivity. }
  { apply Forall_forall. compute_done. }
  do 2 eexists. split; [exact Hpost|].
  assert (Hu : unanimity
                 (stamp_consensus (randomUUID (Trinity.sys "4")) "id-0"
                    (now (Trinity.sys "4")) (payload (getAIResponses s "id-0") text))
               = true) by (vm_compute; reflexivity).
  split; [exact Hu|].
  destruct (C10_unanimity_implies_decided Trinity.AI_MODELS Trinity.AI_MODEL_ROLES
              (Trinity.sys "4") "id-0" s _ _ Hpost) as (Hdecided & _).
  exact (Hdecided Hu).
Defined.

(** ** More of the store *)

Section StoreProperties.

Variable AI_MODELS : list string.

Lemma upsert_elem_of (r x : AIResponse) (rs : list AIResponse) :
  x ∈ upsert r rs → x = r ∨ x ∈ rs.
Proof.
  unfold upsert. destruct (findIndex _ rs) as [i|].
  - intros (j & Hj)%list_elem_of_lookup_1.
    apply list_lookup_insert_Some in Hj as [(_ & -> & _)|(_ & Hj)]; [by left|].
    right. by eapply list_elem_of_lookup_2.
  - rewrite elem_of_app, list_elem_of_singleton. tauto.
Qed.

(** Whether the voter of a response is on file decides what [upsert] does. *)
Lemma upsert_known (r : AIResponse) (rs : list AIResponse) :
  model r ∈ (model <$> rs) → length (upsert r rs) = length rs.
Proof.
  intros Hin. unfold upsert. destruct (findIndex _ rs) as [i|] eqn:Hf.
  - apply length_insert.
  - apply list_elem_of_fmap in Hin as (x & Hx & Hin).
    pose proof (findIndex_None _ _ Hf x Hin) as Hp. simpl in Hp.
    apply String.eqb_neq in Hp. congruence.
Qed.

Lemma upsert_new (r : AIResponse) (rs : list AIResponse) :
  model r ∉ (model <$> rs) → upsert r rs = rs ++ [r].
Proof.
  intros Hnot. unfold upsert. destruct (findIndex _ rs) as [i|] eqn:Hf; [|done].
  apply findIndex_Some in Hf as (x & Hi & Hx%String.eqb_eq).
  exfalso. apply Hnot. rewrite <- Hx. apply list_elem_of_fmap. exists x.
  split; [done|]. by eapply list_elem_of_lookup_2.
Qed.

Lemma upsert_others (r x : AIResponse) (rs : list AIResponse) (j : nat) :
  rs !! j = Some x → model x ≠ model r → upsert r rs !! j = Some x.
Proof.
  intros Hj Hne. unfold upsert. destruct (findIndex _ rs) as [i|] eqn:Hf.
  - apply findIndex_Some in Hf as (y & Hi & Hy%String.eqb_eq).
    rewrite list_lookup_insert_ne; [done|]. intros ->. congruence.
  - by apply lookup_app_l_Some.
Qed.

Lemma allResponded_upsert (r : AIResponse) (rs : list AIResponse) :
  allResponded AI_MODELS rs = true → allResponded AI_MODELS (upsert r rs) = true.
Proof.
  rewrite !allResponded_spec. intros Hall m Hm. specialize (Hall m Hm).
  destruct (upsert_voters r rs) as [[_ ->]|[_ ->]]; [done|].
  apply elem_of_app. by left.
Qed.

(** X1. A decision just created is read back as it was returned, with status
    [pending], no response and no consensus, provided the id drawn has no
    consensus on file; every other id reads as before. *)
Theorem createDecision_read_back (sys : Sys) (ins : InsertDecision) (s : MemStorage) :
  consensuses s !! randomUUID sys = None →
  let decision := (createDecision sys ins s).1 in
  let s' := (createDecision sys ins s).2 in
  getDecision s' (randomUUID sys) = Some decision
  ∧ d_id decision = randomUUID sys
  ∧ status decision = pending
  ∧ responses decision = [] ∧ consensus decision = None
  ∧ d_createdAt decision = now sys ∧ updatedAt decision = now sys
  ∧ getAIResponses s' (randomUUID sys) = []
  ∧ (∀ id, id ≠ randomUUID sys →
       getDecision s' id = getDecision s id
       ∧ getAIResponses s' id = getAIResponses s id
       ∧ getConsensus s' id = getConsensus s id).
Proof.
  intros Hfresh decision s'.
  unfold getDecision, getAIResponses, getConsensus. simpl.
  rewrite !lookup_insert_eq, Hfresh. split_and!; try done.
  intros id Hne. by rewrite !lookup_insert_ne.
Qed.

(** X2. In every store the operations can lead to, a consensus is on file
    only for an existing decision and carries that decision's id, and every
    response is filed under the decision id it carries. *)
Theorem reachable_links (s : MemStorage) (id : string) :
  reachable AI_MODELS s →
  (∀ c, getConsensus s id = Some c →
        is_Some (decisions s !! id) ∧ c_decisionId c = id)
  ∧ (∀ r, r ∈ getAIResponses s id → r_decisionId r = id).
Proof.
  unfold reachable. intros Hr. revert id.
  eapply (rtc_ind_r (λ t, ∀ id,
            (∀ c, getConsensus t id = Some c →
                  is_Some (decisions t !! id) ∧ c_decisionId c = id)
            ∧ (∀ r, r ∈ getAIResponses t id → r_decisionId r = id)));
    [| |exact Hr].
  - intros id. unfold getConsensus, getAIResponses. simpl.
    rewrite !lookup_empty. split; [done|]. intros r Hr'. by apply elem_of_nil in Hr'.
  - clear s Hr. intros s s' _ Hstep IH id. destruct (IH id) as [IHc IHr].
    destruct Hstep as [sys ins s|sys id' u s|id' s|sys ins s|sys id' cd s].
    + unfold getConsensus, getAIResponses in *. simpl.
      destruct (decide (id = randomUUID sys)) as [->|Hne].
      * rewrite !lookup_insert_eq. split.
        -- intros c Hc. split; [by eexists|]. by apply IHc.
        -- intros r Hr'. by apply elem_of_nil in Hr'.
      * by rewrite !lookup_insert_ne.
    + unfold updateDecision. destruct (decisions s !! id') as [d|] eqn:Hd; [|done].
      unfold getConsensus, getAIResponses in *. simpl. split; [|done].
      intros c Hc. destruct (IHc c Hc) as [Hsome ?]. split; [|done].
      destruct (decide (id = id')) as [->|Hne].
      * rewrite lookup_insert_eq. by eexists.
      * by rewrite lookup_insert_ne.
    + unfold getConsensus, getAIResponses in *. simpl.
      destruct (decide (id = id')) as [->|Hne].
      * rewrite !lookup_delete_eq. split; [done|].
        intros r Hr'. by apply elem_of_nil in Hr'.
      * by rewrite !lookup_delete_ne.
    + split.
      * unfold getConsensus. rewrite addAIResponse_consensuses.
        intros c Hc. destruct (IHc c Hc) as [[d Hd] ?]. split; [|done].
        destruct (decide (id = ins_decisionId ins)) as [->|Hne].
        -- rewrite (addAIResponse_decision _ _ _ _ _ Hd). by eexists.
        -- rewrite addAIResponse_decision_ne by done. by eexists.
      * destruct (decide (id = ins_decisionId ins)) as [->|Hne].
        -- rewrite addAIResponse_responses.
           intros r [->|Hr']%upsert_elem_of; [done|]. by apply IHr.
        -- by rewrite addAIResponse_responses_ne.
    + unfold setConsensus. destruct (decisions s !! id') as [d|] eqn:Hd; [|done].
      unfold getConsensus, getAIResponses in *. simpl. split; [|done].
      destruct (decide (id = id')) as [->|Hne].
      * rewrite !lookup_insert_eq. intros c [= <-]. split; [by eexists|done].
      * by rewrite !lookup_insert_ne.
Qed.

(** X3. [updateDecision] never touches the responses or the consensus of any
    decision.  For an unknown id it returns nothing and leaves the store as it
    was; for a known id the decision it returns carries the responses and the
    consensus on file and the time of this call as [updatedAt], it is what
    [getDecision] reads afterwards, and every other decision is untouched. *)
Theorem updateDecision_frame (sys : Sys) (id : string) (updates : UpdateDecision)
    (s : MemStorage) :
  let result := (updateDecision sys id updates s).1 in
  let s' := (updateDecision sys id updates s).2 in
  aiResponses s' = aiResponses s
  ∧ consensuses s' = consensuses s
  ∧ (decisions s !! id = None → result = None ∧ s' = s)
  ∧ (is_Some (decisions s !! id) →
     ∃ d', result = Some d'
       ∧ getDecision s' id = Some d'
       ∧ responses d' = getAIResponses s id
       ∧ consensus d' = getConsensus s id
       ∧ updatedAt d' = now sys)
  ∧ (∀ id', id' ≠ id → decisions s' !! id' = decisions s !! id').
Proof.
  unfold updateDecision. destruct (decisions s !! id) as [d|] eqn:Hd; simpl.
  - split_and!; try done.
    + intros _. eexists. split; [done|]. unfold getDecision. simpl.
      rewrite lookup_insert_eq. done.
    + intros id' Hne. by rewrite lookup_insert_ne.
  - split_and!; try done.
Qed.

(** X4. A submission touches one decision only: no consensus changes, not
    even that of the decision voted on; the responses and the record of every
    other decision stay as they are; and no decision appears or disappears. *)
Theorem addAIResponse_frame (sys : Sys) (ins : InsertAIResponse) (s : MemStorage) :
  let s' := (addAIResponse AI_MODELS sys ins s).2 in
  consensuses s' = consensuses s
  ∧ (∀ id, getConsensus s' id = getConsensus s id)
  ∧ (∀ id, id ≠ ins_decisionId ins →
       getAIResponses s' id = getAIResponses s id
       ∧ decisions s' !! id = decisions s !! id)
  ∧ (∀ id, is_Some (decisions s' !! id) ↔ is_Some (decisions s !! id)).
Proof.
  intros s'. split_and!; try done.
  - intros id Hne. split.
    + by apply addAIResponse_responses_ne.
    + by apply addAIResponse_decision_ne.
  - intros id. destruct (decide (id = ins_decisionId ins)) as [->|Hne].
    + unfold s'. destruct (decisions s !! ins_decisionId ins) as [d|] eqn:Hd.
      * rewrite (addAIResponse_decision _ _ _ _ _ Hd). split; intros _; by eexists.
      * by rewrite addAIResponse_decision_None.
    + unfold s'. by rewrite addAIResponse_decision_ne.
Qed.

(** X5. A submission leaves the responses of the other voters where they are.
    When its voter is already on file the list keeps its length; when not,
    the new response is appended at the end. *)
Theorem addAIResponse_other_voters (sys : Sys) (ins : InsertAIResponse) (s : MemStorage) :
  let rs := getAIResponses s (ins_decisionId ins) in
  let rs' := getAIResponses (addAIResponse AI_MODELS sys ins s).2 (ins_decisionId ins) in
  (∀ j r, rs !! j = Some r → model r ≠ ins_model ins → rs' !! j = Some r)
  ∧ (ins_model ins ∈ (model <$> rs) → length rs' = length rs)
  ∧ (ins_model ins ∉ (model <$> rs) →
     rs' = rs ++ [stamp (randomUUID sys) (now sys) ins]).
Proof.
  intros rs rs'. unfold rs'. rewrite addAIResponse_responses. fold rs. split_and!.
  - intros j r Hj Hne. by apply upsert_others.
  - exact (upsert_known (stamp (randomUUID sys) (now sys) ins) rs).
  - exact (upsert_new (stamp (randomUUID sys) (now sys) ins) rs).
Qed.

(** X6. Once every required voter has a response on file for a decision, that
    stays so through any sequence of submissions, to this or to any other
    decision. *)
Theorem allResponded_stable (subs : list (Sys * InsertAIResponse)) (s : MemStorage)
    (id : string) :
  allResponded AI_MODELS (getAIResponses s id) = true →
  allResponded AI_MODELS (getAIResponses (submitAll AI_MODELS subs s) id) = true.
Proof.
  revert s. induction subs as [|[sys ins] subs IH]; intros s Hall; [done|].
  apply (IH (addAIResponse AI_MODELS sys ins s).2).
  destruct (decide (id = ins_decisionId ins)) as [->|Hne].
  - rewrite addAIResponse_responses. by apply allResponded_upsert.
  - by rewrite addAIResponse_responses_ne.
Qed.

(** X7. After a decision is created and any submissions have followed, its
    status is [deliberating] when every required voter has a response on
    file and [pending] when not, given that there is a required voter at
    all. *)
Theorem status_tracks_responses (sys : Sys) (ins : InsertDecision)
    (subs : list (Sys * InsertAIResponse)) (s0 : MemStorage) :
  AI_MODELS ≠ [] →
  let id := randomUUID sys in
  let s := submitAll AI_MODELS subs (createDecision sys ins s0).2 in
  ∃ d, decisions s !! id = Some d
    ∧ status d = (if allResponded AI_MODELS (getAIResponses s id)
                  then deliberating else pending).
Proof.
  intros Hne id.
  assert (Hinit : ∃ d, decisions (createDecision sys ins s0).2 !! id = Some d
    ∧ status d = (if allResponded AI_MODELS (getAIResponses (createDecision sys ins s0).2 id)
                  then deliberating else pending)).
  { eexists. split; [apply lookup_insert_eq|]. unfold getAIResponses. simpl.
    rewrite lookup_insert_eq. simpl. destruct AI_MODELS; done. }
  generalize dependent (createDecision sys ins s0).2. clear s0.
  induction subs as [|[sys' ins'] subs IH]; intros s Hs; [done|].
  apply (IH (addAIResponse AI_MODELS sys' ins' s).2). destruct Hs as (d & Hd & Hst).
  destruct (decide (id = ins_decisionId ins')) as [Heq|Hneq].
  - rewrite Heq in *. rewrite (addAIResponse_decision _ _ _ _ _ Hd).
    eexists. split; [done|].
    destruct (allResponded AI_MODELS (getAIResponses s (ins_decisionId ins'))) eqn:Hall.
    + rewrite addAIResponse_responses, allResponded_upsert by done. simpl.
      case_bool_decide; [congruence|done].
    + rewrite addAIResponse_responses.
      destruct (allResponded AI_MODELS (upsert _ _)); simpl; [|done].
      case_bool_decide; [done|congruence].
  - rewrite addAIResponse_decision_ne, addAIResponse_responses_ne by done. eauto.
Qed.

(** X8. Deleting is idempotent: a second [deleteDecision] of the same id
    returns [false] and leaves the store as the first one left it.  Every
    other id reads as before the delete. *)
Theorem deleteDecision_twice (id : string) (s : MemStorage) :
  let s' := (deleteDecision id s).2 in
  deleteDecision id s' = (false, s')
  ∧ (∀ id', id' ≠ id →
       getDecision s' id' = getDecision s id'
       ∧ getAIResponses s' id' = getAIResponses s id'
       ∧ getConsensus s' id' = getConsensus s id').
Proof.
  unfold deleteDecision, getDecision, getAIResponses, getConsensus. simpl. split.
  - by rewrite !delete_delete_eq, lookup_delete_eq.
  - intros id' Hne. by rewrite !lookup_delete_ne.
Qed.

End StoreProperties.

(** ** More of the endpoints *)

Section EndpointProperties.

Variable AI_MODELS : list string.
Variable AI_MODEL_ROLES : gmap string string.

(** What a 201 of the consensus endpoint was computed from. *)
Lemma postConsensus_201 sys id s c s' :
  postConsensus AI_MODELS AI_MODEL_ROLES sys id s = (reply_json 201 (Some c), s') →
  ∃ d text,
    decisions s !! id = Some d
    ∧ allResponded AI_MODELS (getAIResponses s id) = true
    ∧ calc_synthesizedReasoning AI_MODEL_ROLES (getAIResponses s id) = Some text
    ∧ c = stamp_consensus (randomUUID sys) id (now sys)
            (payload (getAIResponses s id) text)
    ∧ s' = {| decisions := <[id := set_status consensus_reached (now' sys) d]> (decisions s);
              aiResponses := aiResponses s;
              consensuses := <[id := c]> (consensuses s) |}.
Proof.
  unfold postConsensus, getDecision.
  destruct (decisions s !! id) as [d|] eqn:Hd; [|done].
  destruct (allResponded _ _) eqn:Hall; simpl; [|done].
  destruct (calc_synthesizedReasoning _ _) as [text|] eqn:Htext; [|done].
  unfold setConsensus. rewrite Hd. intros [= <- <-]. by exists d, text.
Qed.

Lemma calc_synthesizedReasoning_None (rs : list AIResponse) (r : AIResponse) :
  r ∈ rs → AI_MODEL_ROLES !! model r = None → Object_prototype (model r) = None →
  calc_synthesizedReasoning AI_MODEL_ROLES rs = None.
Proof.
  intros Hr Hrole Hproto. unfold calc_synthesizedReasoning.
  destruct (mapM _ rs) as [lines|] eqn:Hm; [|done].
  assert (Hsome : is_Some (mapM (reasoning_line AI_MODEL_ROLES) rs)) by (by eexists).
  apply mapM_is_Some in Hsome. rewrite Forall_forall in Hsome.
  destruct (Hsome r Hr) as [line Hline]. unfold reasoning_line, role_name in Hline.
  by rewrite Hrole, Hproto in Hline.
Qed.

(** X9. The response endpoint on an existing decision: a body that fails
    validation is answered 400 and nothing is written; a valid body is
    answered 201 with the response stamped by this call and filed under the id
    of the URL, whatever decision id the body carried; the response is then
    among those the responses endpoint lists, and the responses of every
    other decision read as before. *)
Theorem postResponse_existing (sys : Sys) (id : string) (d : Decision) (s : MemStorage) :
  decisions s !! id = Some d →
  postResponse AI_MODELS sys id None s = (reply_error 400 validation_failed, s)
  ∧ (∀ b, ∃ r s',
       postResponse AI_MODELS sys id (Some b) s = (reply_json 201 r, s')
       ∧ r = stamp (randomUUID sys) (now sys) (with_decisionId id b)
       ∧ r_decisionId r = id
       ∧ model r = ins_model b ∧ vote r = ins_vote b
       ∧ r ∈ getAIResponses s' id
       ∧ listResponses id s' = reply_json 200 (getAIResponses s' id)
       ∧ (∀ id', id' ≠ id → getAIResponses s' id' = getAIResponses s id')).
Proof.
  intros Hd. unfold postResponse, getDecision. rewrite Hd. split; [done|].
  intros b.
  destruct (addAIResponse AI_MODELS sys (with_decisionId id b) s) as [r s'] eqn:Hadd.
  exists r, s'.
  pose proof (addAIResponse_result AI_MODELS sys (with_decisionId id b) s) as Hr.
  pose proof (addAIResponse_responses AI_MODELS sys (with_decisionId id b) s) as Hrs.
  pose proof (addAIResponse_decision AI_MODELS sys (with_decisionId id b) s d Hd) as Hd'.
  rewrite Hadd in Hr, Hrs, Hd'. simpl in Hr, Hrs, Hd'. subst r.
  split_and!; try done.
  - rewrite Hrs. destruct (upsert_elem (stamp (randomUUID sys) (now sys) (with_decisionId id b))
                             (getAIResponses s id)) as [i Hi].
    by eapply list_elem_of_lookup_2.
  - unfold listResponses, getDecision. by rewrite Hd'.
  - intros id' Hne.
    pose proof (addAIResponse_responses_ne AI_MODELS sys (with_decisionId id b) s id' Hne) as H.
    by rewrite Hadd in H.
Qed.

(** X10. The consensus endpoint never changes a response, nor the record or
    the consensus of another decision, and it changes the store only when it
    answers 201.  For an unknown id it answers 404.  When all required voters
    have responded but a response on file has a voter for which
    [AI_MODEL_ROLES] has neither an own entry nor an inherited member, it
    answers 500 and writes nothing. *)
Theorem postConsensus_frame (sys : Sys) (id : string) (s : MemStorage) :
  let reply := (postConsensus AI_MODELS AI_MODEL_ROLES sys id s).1 in
  let s' := (postConsensus AI_MODELS AI_MODEL_ROLES sys id s).2 in
  aiResponses s' = aiResponses s
  ∧ (∀ id', id' ≠ id →
       decisions s' !! id' = decisions s !! id'
       ∧ consensuses s' !! id' = consensuses s !! id')
  ∧ ((∀ c, reply ≠ reply_json 201 c) → s' = s)
  ∧ (decisions s !! id = None →
     reply = reply_error 404 (error_only "Decision not found"))
  ∧ (∀ r, is_Some (decisions s !! id) →
          allResponded AI_MODELS (getAIResponses s id) = true →
          r ∈ getAIResponses s id →
          AI_MODEL_ROLES !! model r = None → Object_prototype (model r) = None →
          reply = reply_error 500 (error_only "Failed to reach consensus") ∧ s' = s).
Proof.
  unfold postConsensus, getDecision.
  destruct (decisions s !! id) as [d|] eqn:Hd; simpl.
  2:{ split_and!; try done. }
  destruct (allResponded _ _) eqn:Hall; simpl.
  2:{ split_and!; try done. }
  destruct (calc_synthesizedReasoning _ _) as [text|] eqn:Htext.
  - unfold setConsensus. rewrite Hd. simpl. split_and!; try done.
    + intros id' Hne. by rewrite !lookup_insert_ne.
    + intros Hnot. by destruct (Hnot (Some (stamp_consensus (randomUUID sys) id (now sys)
                                              (payload (getAIResponses s id) text)))).
    + intros r _ _ Hr Hrole Hproto.
      by rewrite (calc_synthesizedReasoning_None _ r Hr Hrole Hproto) in Htext.
  - split_and!; try done.
Qed.

(** X11. After the consensus endpoint answered 201, the consensus is what
    [GET .../consensus] answers with and what the decision carries, now with
    status [consensus_reached].  Asking for the consensus again succeeds and
    gives the same outcome, unanimity, tally, narrative and action items,
    under the id and the time drawn by the second call. *)
Theorem postConsensus_again (sys1 sys2 : Sys) (id : string) (s s1 : MemStorage)
    (c1 : Consensus) :
  postConsensus AI_MODELS AI_MODEL_ROLES sys1 id s = (reply_json 201 (Some c1), s1) →
  fetchConsensus id s1 = reply_json 200 c1
  ∧ (∃ d1, getDecision s1 id = Some d1
       ∧ consensus d1 = Some c1 ∧ status d1 = consensus_reached
       ∧ responses d1 = getAIResponses s id)
  ∧ ∃ c2 s2,
      postConsensus AI_MODELS AI_MODEL_ROLES sys2 id s1 = (reply_json 201 (Some c2), s2)
      ∧ outcome c2 = outcome c1 ∧ unanimity c2 = unanimity c1
      ∧ voteSummary c2 = voteSummary c1
      ∧ synthesizedReasoning c2 = synthesizedReasoning c1
      ∧ actionItems c2 = actionItems c1
      ∧ c_id c2 = randomUUID sys2 ∧ c_createdAt c2 = now sys2
      ∧ getConsensus s2 id = Some c2.
Proof.
  intros (d & text & Hd & Hall & Htext & -> & ->)%postConsensus_201.
  split_and!.
  - unfold fetchConsensus, getDecision, getConsensus. simpl.
    by rewrite !lookup_insert_eq.
  - eexists. unfold getDecision, getConsensus, getAIResponses. simpl.
    rewrite !lookup_insert_eq. done.
  - do 2 eexists. split.
    + unfold postConsensus, getDecision. simpl. rewrite lookup_insert_eq.
      change (getAIResponses {| decisions := _; aiResponses := aiResponses s;
                                consensuses := _ |} id)
        with (getAIResponses s id).
      rewrite Hall, Htext. simpl. unfold setConsensus. simpl.
      rewrite lookup_insert_eq. reflexivity.
    + split_and!; try done. unfold getConsensus. simpl. by rewrite lookup_insert_eq.
Qed.

(** X12. [PATCH] validates before it asks the store: a body that fails
    validation is answered 400 whether or not the decision exists; a valid
    body for an unknown id is answered 404; neither writes anything.  A valid
    body for a known id is answered 200 with the decision as [GET] reads it
    afterwards, stamped with the time of this call, and the responses and
    consensus endpoints answer as before. *)
Theorem patchDecision_cases (sys : Sys) (id : string) (s : MemStorage) :
  patchDecision sys id None s = (reply_error 400 validation_failed, s)
  ∧ (∀ updates, decisions s !! id = None →
       patchDecision sys id (Some updates) s
       = (reply_error 404 (error_only "Decision not found"), s))
  ∧ (∀ updates, is_Some (decisions s !! id) →
       ∃ d' s',
         patchDecision sys id (Some updates) s = (reply_json 200 d', s')
         ∧ fetchDecision id s' = reply_json 200 d'
         ∧ updatedAt d' = now sys
         ∧ listResponses id s' = listResponses id s
         ∧ fetchConsensus id s' = fetchConsensus id s).
Proof.
  split_and!; [done| |].
  - intros updates Hd. unfold patchDecision, updateDecision. by rewrite Hd.
  - intros updates [d Hd]. unfold patchDecision, updateDecision. rewrite Hd.
    do 2 eexists. split; [reflexivity|].
    unfold fetchDecision, listResponses, fetchConsensus, getDecision. simpl.
    rewrite lookup_insert_eq, Hd. done.
Qed.

(** *** The stores requests lead to *)

(** The store after the consensus endpoint: the one it was, or that one with
    the decision and its consensus rewritten. *)
Lemma postConsensus_store sys id s :
  (postConsensus AI_MODELS AI_MODEL_ROLES sys id s).2 = s
  ∨ ∃ d c, decisions s !! id = Some d
      ∧ (postConsensus AI_MODELS AI_MODEL_ROLES sys id s).2
        = {| decisions := <[id := set_status consensus_reached (now' sys) d]> (decisions s);
             aiResponses := aiResponses s;
             consensuses := <[id := c]> (consensuses s) |}.
Proof.
  unfold postConsensus, getDecision.
  destruct (decisions s !! id) as [d|] eqn:Hd; [|by left].
  destruct (negb _); [by left|].
  destruct (calc_synthesizedReasoning _ _) as [text|]; [|by left].
  right. unfold setConsensus. rewrite Hd. simpl. eauto.
Qed.

Lemma no_orphans_add sys ins s :
  is_Some (decisions s !! ins_decisionId ins) →
  no_orphans s → no_orphans (addAIResponse AI_MODELS sys ins s).2.
Proof.
  intros Hsome Hs id Hid.
  destruct (decide (id = ins_decisionId ins)) as [->|Hne].
  - destruct Hsome as [d Hd].
    by rewrite (addAIResponse_decision _ _ _ _ _ Hd) in Hid.
  - rewrite addAIResponse_decision_ne in Hid by done.
    simpl. rewrite lookup_insert_ne by done. by apply Hs.
Qed.

Lemma no_orphans_api_step s s' :
  api_step AI_MODELS AI_MODEL_ROLES s s' → no_orphans s → no_orphans s'.
Proof.
  intros Hstep Hs. destruct Hstep as [sys body s|sys id body s|id s|sys id body s|sys id s].
  - destruct body as [ins|]; [|done]. intros id. simpl.
    destruct (decide (id = randomUUID sys)) as [->|Hne].
    + by rewrite lookup_insert_eq.
    + rewrite !lookup_insert_ne by done. apply Hs.
  - destruct body as [u|]; [|done]. unfold patchDecision, updateDecision.
    destruct (decisions s !! id) as [d|] eqn:Hd; [|done]. intros id'. simpl.
    destruct (decide (id' = id)) as [->|Hne].
    + by rewrite lookup_insert_eq.
    + rewrite lookup_insert_ne by done. apply Hs.
  - unfold removeDecision. simpl.
    assert (Hdel : no_orphans (deleteDecision id s).2).
    { intros id'. simpl. destruct (decide (id' = id)) as [->|Hne].
      - by rewrite !lookup_delete_eq.
      - rewrite !lookup_delete_ne by done. apply Hs. }
    by destruct (bool_decide _).
  - unfold postResponse, getDecision.
    destruct (decisions s !! id) as [d|] eqn:Hd; [|done].
    destruct body as [b|]; [|done].
    pose proof (no_orphans_add sys (with_decisionId id b) s) as Hadd.
    destruct (addAIResponse _ _ _ _) as [r s'']. apply Hadd; [|done]. by eexists.
  - destruct (postConsensus_store sys id s) as [->|(d & c & Hd & ->)]; [done|].
    intros id' Hid'. simpl in *. destruct (decide (id' = id)) as [->|Hne].
    + by rewrite lookup_insert_eq in Hid'.
    + rewrite lookup_insert_ne in Hid' by done.
      rewrite lookup_insert_ne by done. by apply Hs.
Qed.

Lemma no_orphans_api_reachable s :
  api_reachable AI_MODELS AI_MODEL_ROLES s → no_orphans s.
Proof.
  unfold api_reachable. intros Hr.
  eapply (rtc_ind_r (λ t, no_orphans t)); [| |exact Hr].
  - intros id _. simpl. by rewrite !lookup_empty.
  - intros y z _ Hstep Hy. by eapply no_orphans_api_step.
Qed.

(** X13. When the server is driven by requests, an id without a decision has
    no responses and no consensus on file, and [DELETE] on it answers 404 and
    leaves the store exactly as it was. *)
Theorem api_no_orphans (s : MemStorage) (id : string) :
  api_reachable AI_MODELS AI_MODEL_ROLES s →
  decisions s !! id = None →
  aiResponses s !! id = None
  ∧ consensuses s !! id = None
  ∧ removeDecision id s = (reply_error 404 (error_only "Decision not found"), s).
Proof.
  intros Hr Hd. destruct (no_orphans_api_reachable s Hr id Hd) as [Hrs Hc].
  split_and!; [done..|].
  unfold removeDecision, deleteDecision. rewrite Hd. simpl.
  rewrite !delete_id by done. by destruct s.
Qed.

End EndpointProperties.

(** ** More of the calculation *)

Lemma filter_all {A} (P : A → Prop) `{∀ x, base.Decision (P x)} (l : list A) :
  (∀ x, x ∈ l → P x) → filter P l = l.
Proof.
  induction l as [|a l IH]; intros Hl; [done|].
  rewrite filter_cons_True by (apply Hl; left). f_equal.
  apply IH. intros x Hx. apply Hl. by right.
Qed.

(** X14. [Array.from(new Set(items))] returns a list without duplicates as
    it is, so applying it to its own result changes nothing. *)
Theorem array_from_set_fixed (items : list string) :
  (NoDup items → array_from_set items = items)
  ∧ array_from_set (array_from_set items) = array_from_set items.
Proof.
  assert (Hfix : ∀ l, NoDup l → array_from_set l = l).
  { intros l. rewrite array_from_set_keep_first.
    induction l as [|x l IH]; intros Hnd; [done|].
    apply NoDup_cons in Hnd as [Hx Hnd]. simpl. rewrite IH by done. f_equal.
    apply filter_all. intros y Hy ->. done. }
  split; [apply Hfix|]. apply Hfix.
  rewrite array_from_set_keep_first. apply keep_first_NoDup.
Qed.

(** ** The statistics *)

Section StatsFacts.

Lemma count_status_total (ds : list Decision) :
  count_status pending ds + count_status deliberating ds
  + count_status consensus_reached ds + count_status deadlock ds = length ds.
Proof.
  unfold count_status. induction ds as [|d ds IH]; [done|].
  rewrite !filter_cons. destruct (status d); repeat case_decide; try done; simpl; lia.
Qed.

Lemma bumped_None (k : string) (entry : option Count) :
  bumped k entry = None → entry = None.
Proof.
  destruct entry as [[n|t]|]; simpl; [done| |done]. by case_bool_decide.
Qed.

Lemma bump_lookup (k k' : string) (counts : gmap string Count) :
  bump k counts !! k'
  = (if decide (k = k') then bumped k (counts !! k) else counts !! k').
Proof.
  unfold bump. destruct (bumped k (counts !! k)) as [entry|] eqn:Hb.
  - case_decide as Hk.
    + subst. by rewrite lookup_insert_eq.
    + by rewrite lookup_insert_ne.
  - case_decide as Hk; [|done]. subst. by apply bumped_None in Hb.
Qed.

(** The two tables the loop fills, for any key function: the entry under a
    key is the initial one bumped once for every decision with that key. *)
Lemma foldl_bump_lookup (f : Decision → string) (ds : list Decision)
    (counts : gmap string Count) (k : string) :
  foldl (λ m d, bump (f d) m) counts ds !! k
  = Nat.iter (length (filter (λ d, f d = k) ds)) (bumped k) (counts !! k).
Proof.
  revert counts. induction ds as [|d ds IH]; intros counts; [done|].
  simpl. rewrite IH, bump_lookup, filter_cons.
  case_decide as Hk; [|done]. subst k. simpl. apply Nat.iter_swap.
Qed.

(** For a key the object does not inherit, the entries are the counts. *)
Lemma iter_bumped_plain (k : string) (n : nat) :
  Object_prototype k = None →
  Nat.iter n (bumped k) None
  = (if bool_decide (n = 0) then None else Some (count_number n)).
Proof.
  intros Hk. induction n as [|n IH]; [done|].
  simpl. rewrite IH. case_bool_decide as Hn.
  - subst. simpl. by rewrite Hk.
  - simpl. do 2 f_equal. lia.
Qed.

Lemma visit_byCategory (st : Stats) (ds : list Decision) :
  byCategory (foldl stats_visit st ds)
  = foldl (λ m d, bump (category d) m) (byCategory st) ds.
Proof. revert st. induction ds as [|d ds IH]; intros st; [done|]. simpl. by rewrite IH. Qed.

Lemma visit_byPriority (st : Stats) (ds : list Decision) :
  byPriority (foldl stats_visit st ds)
  = foldl (λ m d, bump (priority d) m) (byPriority st) ds.
Proof. revert st. induction ds as [|d ds IH]; intros st; [done|]. simpl. by rewrite IH. Qed.

Lemma visit_fixed (st : Stats) (ds : list Decision) :
  totalDecisions (foldl stats_visit st ds) = totalDecisions st
  ∧ byStatus (foldl stats_visit st ds) = byStatus st.
Proof. revert st. induction ds as [|d ds IH]; intros st; [done|]. simpl. by rewrite !(proj1 (IH _)), !(proj2 (IH _)). Qed.

Lemma visit_outcomes (st : Stats) (ds : list Decision) :
  let n o := length (filter (λ d, outcome <$> consensus d = Some o) ds) in
  let oc := consensusOutcomes (foldl stats_visit st ds) in
  n_approved oc = n_approved (consensusOutcomes st) + n approved
  ∧ n_rejected oc = n_rejected (consensusOutcomes st) + n rejected
  ∧ n_needs_revision oc = n_needs_revision (consensusOutcomes st) + n needs_revision.
Proof.
  revert st. induction ds as [|d ds IH]; intros st; simpl; [lia|].
  destruct (IH (stats_visit st d)) as (Ha & Hr & Hn). rewrite Ha, Hr, Hn.
  rewrite !filter_cons. simpl.
  destruct (consensus d) as [c|]; simpl; [|repeat case_decide; try done; lia].
  destruct (outcome c); simpl; repeat case_decide; try done; simpl; lia.
Qed.

Lemma visit_unanimous (st : Stats) (ds : list Decision) :
  unanimousDecisions (foldl stats_visit st ds)
  = unanimousDecisions st
    + length (filter (λ d, unanimity <$> consensus d = Some true) ds).
Proof.
  revert st. induction ds as [|d ds IH]; intros st; simpl; [lia|].
  rewrite IH, filter_cons. simpl.
  destruct (consensus d) as [c|]; simpl; [destruct (unanimity c)|];
    repeat case_decide; try done; simpl; lia.
Qed.

Lemma count_outcomes_total (ds : list Decision) :
  length (filter (λ d, outcome <$> consensus d = Some approved) ds)
  + length (filter (λ d, outcome <$> consensus d = Some rejected) ds)
  + length (filter (λ d, outcome <$> consensus d = Some needs_revision) ds)
  = length (filter (λ d, is_Some (consensus d)) ds).
Proof.
  induction ds as [|d ds IH]; [done|]. rewrite !filter_cons.
  destruct (consensus d) as [c|]; simpl; [destruct (outcome c)|];
    repeat case_decide; try done; simpl; try lia;
    try (exfalso; eauto; fail);
    match goal with H : is_Some None |- _ => by destruct H end.
Qed.

Lemma count_unanimous_le (ds : list Decision) :
  length (filter (λ d, unanimity <$> consensus d = Some true) ds)
  ≤ length (filter (λ d, is_Some (consensus d)) ds).
Proof.
  induction ds as [|d ds IH]; [done|]. rewrite !filter_cons.
  destruct (consensus d) as [c|]; simpl; repeat case_decide; simpl; try done;
    try lia; exfalso; eauto.
Qed.

End StatsFacts.

(** X15. The statistics are consistent: the total is the number of
    decisions and the four status counts add up to it; the three outcome
    counts add up to the number of decisions that carry a consensus, which
    bounds the number of unanimous ones and is at most the total. *)
Theorem stats_consistent (ds : list Decision) :
  let st := calc_stats ds in
  let decided := n_approved (consensusOutcomes st) + n_rejected (consensusOutcomes st)
                 + n_needs_revision (consensusOutcomes st) in
  totalDecisions st = length ds
  ∧ n_pending (byStatus st) + n_deliberating (byStatus st)
    + n_consensus_reached (byStatus st) + n_deadlock (byStatus st)
    = totalDecisions st
  ∧ decided = length (filter (λ d, is_Some (consensus d)) ds)
  ∧ unanimousDecisions st ≤ decided
  ∧ decided ≤ totalDecisions st.
Proof.
  intros st decided. unfold decided, st, calc_stats.
  destruct (visit_fixed (stats_init ds) ds) as [-> ->].
  destruct (visit_outcomes (stats_init ds) ds) as (-> & -> & ->).
  rewrite visit_unanimous. simpl.
  pose proof (count_outcomes_total ds) as Ho.
  pose proof (count_unanimous_le ds) as Hu.
  pose proof (length_filter (λ d, is_Some (consensus d)) ds) as Hl.
  split_and!; [done|apply count_status_total|lia..].
Qed.

(** X16. For a key that is not a member of [Object.prototype], as every
    category and every priority of the schema is, [byCategory] and
    [byPriority] hold the number of decisions that have it, and no entry when
    none has it. *)
Theorem stats_by_key (ds : list Decision) (k : string) :
  Object_prototype k = None →
  let st := calc_stats ds in
  let with_category := length (filter (λ d, category d = k) ds) in
  let with_priority := length (filter (λ d, priority d = k) ds) in
  byCategory st !! k
  = (if bool_decide (with_category = 0) then None
     else Some (count_number with_category))
  ∧ byPriority st !! k
    = (if bool_decide (with_priority = 0) then None
       else Some (count_number with_priority)).
Proof.
  intros Hk st c p. unfold st, calc_stats.
  rewrite visit_byCategory, visit_byPriority. simpl.
  rewrite !foldl_bump_lookup, !lookup_empty. split; by apply iter_bumped_plain.
Qed.

Lemma Stats_eq (a b : Stats) :
  totalDecisions a = totalDecisions b → byStatus a = byStatus b →
  byCategory a = byCategory b → byPriority a = byPriority b →
  consensusOutcomes a = consensusOutcomes b →
  unanimousDecisions a = unanimousDecisions b → a = b.
Proof. destruct a, b. simpl. by intros -> -> -> -> -> ->. Qed.

Lemma filter_length_Permutation {A} (P : A → Prop) `{∀ x, base.Decision (P x)}
    (l l' : list A) :
  l ≡ₚ l' → length (filter P l) = length (filter P l').
Proof. intros Hp. apply Permutation_length. by rewrite Hp. Qed.

(** X17. The statistics do not depend on the order in which the decisions
    are listed. *)
Theorem stats_permutation (ds ds' : list Decision) :
  ds ≡ₚ ds' → calc_stats ds = calc_stats ds'.
Proof.
  intros Hp. unfold calc_stats. apply Stats_eq.
  - rewrite (proj1 (visit_fixed (stats_init ds) ds)),
            (proj1 (visit_fixed (stats_init ds') ds')). simpl.
    by apply Permutation_length.
  - rewrite (proj2 (visit_fixed (stats_init ds) ds)),
            (proj2 (visit_fixed (stats_init ds') ds')). simpl.
    unfold count_status. by rewrite !(filter_length_Permutation _ ds ds' Hp).
  - apply map_eq. intros k. rewrite !visit_byCategory. simpl.
    rewrite !foldl_bump_lookup.
    by rewrite (filter_length_Permutation _ ds ds' Hp).
  - apply map_eq. intros k. rewrite !visit_byPriority. simpl.
    rewrite !foldl_bump_lookup.
    by rewrite (filter_length_Permutation _ ds ds' Hp).
  - destruct (visit_outcomes (stats_init ds) ds) as (Ha & Hr & Hn).
    destruct (visit_outcomes (stats_init ds') ds') as (Ha' & Hr' & Hn').
    destruct (consensusOutcomes (foldl stats_visit (stats_init ds) ds)),
             (consensusOutcomes (foldl stats_visit (stats_init ds') ds')).
    simpl in *. subst.
    by rewrite !(filter_length_Permutation _ ds ds' Hp).
  - rewrite !visit_unanimous. simpl.
    by rewrite (filter_length_Permutation _ ds ds' Hp).
Qed.

(** ** The further theorems at work on the three-voter configuration *)

Lemma Trinity_created_api_reachable :
  api_reachable Trinity.AI_MODELS Trinity.AI_MODEL_ROLES Trinity.created.
Proof.
  eapply rtc_r; [apply rtc_refl|].
  exact (api_postDecision _ _ (Trinity.sys "0") (Some Trinity.proposal) newMemStorage).
Qed.

Lemma createDecision_read_back_witness :
  consensuses newMemStorage !! randomUUID (Trinity.sys "0") = None
  ∧ getDecision Trinity.created "id-0" = Some (Trinity.decision pending "T0").
Proof.
  assert (Hfresh : consensuses newMemStorage !! randomUUID (Trinity.sys "0") = None)
    by (vm_compute; reflexivity).
  split; [exact Hfresh|].
  destruct (createDecision_read_back (Trinity.sys "0") Trinity.proposal newMemStorage Hfresh)
    as (Hread & _).
  exact Hread.
Defined.

Lemma reachable_links_witness :
  let s0 := Trinity.voted approve approve reject in
  let s := (setConsensus (Trinity.sys "4") "id-0"
              (payload (getAIResponses s0 "id-0") "two to one") s0).2 in
  reachable Trinity.AI_MODELS s
  ∧ Trinity.grok_first approve ∈ getAIResponses s "id-0"
  ∧ r_decisionId (Trinity.grok_first approve) = "id-0"
  ∧ ∃ c, getConsensus s "id-0" = Some c
      ∧ is_Some (decisions s !! "id-0") ∧ c_decisionId c = "id-0".
Proof.
  intros s0 s.
  assert (Hr : reachable Trinity.AI_MODELS s).
  { eapply rtc_r; [apply (Trinity_voted_reachable approve approve reject)|].
    apply step_consensus. }
  assert (Hin : Trinity.grok_first approve ∈ getAIResponses s "id-0")
    by (apply (list_elem_of_lookup_2 _ 0); vm_compute; reflexivity).
  destruct (reachable_links Trinity.AI_MODELS s "id-0" Hr) as (Hc & Hrs).
  split_and!; [exact Hr|exact Hin|exact (Hrs _ Hin)|].
  eexists. split; [vm_compute; reflexivity|]. apply Hc. vm_compute. reflexivity.
Defined.

Lemma updateDecision_frame_witness :
  let updates := {| upd_title := None; upd_description := None; upd_context := None;
                    upd_category := None; upd_priority := None;
                    upd_status := Some deadlock |} in
  is_Some (decisions Trinity.two_voted !! "id-0")
  ∧ decisions Trinity.two_voted !! "id-9" = None
  ∧ (∃ d', (updateDecision (Trinity.sys "7") "id-0" updates Trinity.two_voted).1 = Some d'
       ∧ length (responses d') = 2 ∧ updatedAt d' = "T7")
  ∧ updateDecision (Trinity.sys "7") "id-9" updates Trinity.two_voted
    = (None, Trinity.two_voted).
Proof.
  intros updates.
  assert (Hsome : is_Some (decisions Trinity.two_voted !! "id-0"))
    by (eexists; vm_compute; reflexivity).
  assert (Hnone : decisions Trinity.two_voted !! "id-9" = None) by (vm_compute; reflexivity).
  split_and!; [exact Hsome|exact Hnone| |].
  - destruct (updateDecision_frame (Trinity.sys "7") "id-0" updates Trinity.two_voted)
      as (_ & _ & _ & Hknown & _).
    destruct (Hknown Hsome) as (d' & Hres & _ & Hrs & _ & Ht).
    exists d'. split_and!; [exact Hres| |exact Ht]. rewrite Hrs. vm_compute. reflexivity.
  - destruct (updateDecision_frame (Trinity.sys "7") "id-9" updates Trinity.two_voted)
      as (_ & _ & Hunknown & _).
    destruct (Hunknown Hnone) as [Hres Hs].
    destruct (updateDecision _ _ _ _). simpl in *. by subst.
Defined.

Lemma addAIResponse_frame_witness :
  let s := Board.decided approve approve reject in
  let s' := (addAIResponse Trinity.AI_MODELS (Trinity.sys "5") Trinity.grok_again s).2 in
  "id-9" ≠ ins_decisionId Trinity.grok_again
  ∧ getConsensus s' "id-0" = getConsensus s "id-0"
  ∧ getAIResponses s' "id-9" = getAIResponses s "id-9".
Proof.
  intros s s'.
  assert (Hne : "id-9" ≠ ins_decisionId Trinity.grok_again) by discriminate.
  destruct (addAIResponse_frame Trinity.AI_MODELS (Trinity.sys "5") Trinity.grok_again s)
    as (_ & Hc & Hother & _).
  split_and!; [exact Hne|exact (Hc "id-0")|exact (proj1 (Hother "id-9" Hne))].
Defined.

Lemma addAIResponse_other_voters_witness :
  let s := Trinity.voted approve approve reject in
  let chatgpt := stamp "id-2" "T2"
                   (Trinity.submission "chatgpt" approve (Some ["add tests"; "ship it"])) in
  let rs' := getAIResponses
               (addAIResponse Trinity.AI_MODELS (Trinity.sys "5") Trinity.grok_again s).2
               "id-0" in
  getAIResponses s "id-0" !! 1 = Some chatgpt
  ∧ model chatgpt ≠ ins_model Trinity.grok_again
  ∧ ins_model Trinity.grok_again ∈ (model <$> getAIResponses s "id-0")
  ∧ rs' !! 1 = Some chatgpt
  ∧ length rs' = 3.
Proof.
  intros s chatgpt rs'.
  assert (H1 : getAIResponses s "id-0" !! 1 = Some chatgpt) by (vm_compute; reflexivity).
  assert (Hne : model chatgpt ≠ ins_model Trinity.grok_again) by discriminate.
  assert (Hin : ins_model Trinity.grok_again ∈ (model <$> getAIResponses s "id-0"))
    by compute_done.
  destruct (addAIResponse_other_voters Trinity.AI_MODELS (Trinity.sys "5")
              Trinity.grok_again s) as (Hkeep & Hlen & _).
  split_and!; [exact H1|exact Hne|exact Hin|exact (Hkeep 1 chatgpt H1 Hne)|].
  unfold rs'. change "id-0" with (ins_decisionId Trinity.grok_again).
  rewrite (Hlen Hin). vm_compute. reflexivity.
Defined.

Lemma allResponded_stable_witness :
  let s := Trinity.voted approve approve reject in
  let subs := [(Trinity.sys "5", Trinity.grok_again);
               (Trinity.sys "6", Trinity.submission "qwen" reject None)] in
  allResponded Trinity.AI_MODELS (getAIResponses s "id-0") = true
  ∧ allResponded Trinity.AI_MODELS
      (getAIResponses (submitAll Trinity.AI_MODELS subs s) "id-0") = true.
Proof.
  intros s subs.
  assert (Hall : allResponded Trinity.AI_MODELS (getAIResponses s "id-0") = true)
    by (vm_compute; reflexivity).
  split; [exact Hall|].
  exact (allResponded_stable Trinity.AI_MODELS subs s "id-0" Hall).
Defined.

Lemma status_tracks_responses_witness :
  Trinity.AI_MODELS ≠ []
  ∧ ∃ d, decisions Trinity.two_voted !! "id-0" = Some d ∧ status d = pending.
Proof.
  assert (Hne : Trinity.AI_MODELS ≠ []) by discriminate.
  split; [exact Hne|].
  destruct (status_tracks_responses Trinity.AI_MODELS (Trinity.sys "0") Trinity.proposal
              [(Trinity.sys "1", Trinity.submission "grok" approve None);
               (Trinity.sys "2", Trinity.submission "chatgpt" approve None)]
              newMemStorage Hne) as (d & Hd & Hst).
  exists d. split; [exact Hd|]. rewrite Hst. vm_compute. reflexivity.
Defined.

Lemma deleteDecision_twice_witness :
  let s := Trinity.voted approve approve reject in
  "id-9" ≠ "id-0"
  ∧ deleteDecision "id-0" (deleteDecision "id-0" s).2 = (false, (deleteDecision "id-0" s).2)
  ∧ getDecision (deleteDecision "id-0" s).2 "id-9" = getDecision s "id-9".
Proof.
  intros s. assert (Hne : "id-9" ≠ "id-0") by discriminate.
  destruct (deleteDecision_twice "id-0" s) as (Htwice & Hother).
  split_and!; [exact Hne|exact Htwice|exact (proj1 (Hother "id-9" Hne))].
Defined.

Lemma postResponse_existing_witness :
  let body := {| ins_decisionId := "elsewhere"; ins_model := "grok"; ins_vote := approve;
                 ins_reasoning := "because"; ins_confidence := 90; ins_risks := None;
                 ins_recommendations := None |} in
  decisions Trinity.created !! "id-0" = Some (Trinity.decision pending "T0")
  ∧ ∃ r s',
      postResponse Trinity.AI_MODELS (Trinity.sys "1") "id-0" (Some body) Trinity.created
      = (reply_json 201 r, s')
      ∧ r_decisionId r = "id-0" ∧ r ∈ getAIResponses s' "id-0".
Proof.
  intros body.
  assert (Hd : decisions Trinity.created !! "id-0" = Some (Trinity.decision pending "T0"))
    by (vm_compute; reflexivity).
  split; [exact Hd|].
  destruct (postResponse_existing Trinity.AI_MODELS (Trinity.sys "1") "id-0" _
              Trinity.created Hd) as (_ & Hvalid).
  destruct (Hvalid body) as (r & s' & Hpost & _ & Hid & _ & _ & Hin & _).
  exists r, s'. split_and!; [exact Hpost|exact Hid|exact Hin].
Defined.

Lemma postConsensus_frame_witness :
  let qwen := Trinity.submission "qwen" reject None in
  let s := (addAIResponse Trinity.AI_MODELS (Trinity.sys "6") qwen
              (Trinity.voted approve approve reject)).2 in
  decisions Trinity.created !! "id-9" = None
  ∧ (postConsensus Trinity.AI_MODELS Trinity.AI_MODEL_ROLES (Trinity.sys "4") "id-9"
       Trinity.created).1
    = reply_error 404 (error_only "Decision not found")
  ∧ is_Some (decisions s !! "id-0")
  ∧ allResponded Trinity.AI_MODELS (getAIResponses s "id-0") = true
  ∧ stamp "id-6" "T6" qwen ∈ getAIResponses s "id-0"
  ∧ Trinity.AI_MODEL_ROLES !! "qwen" = None
  ∧ Object_prototype "qwen" = None
  ∧ postConsensus Trinity.AI_MODELS Trinity.AI_MODEL_ROLES (Trinity.sys "7") "id-0" s
    = (reply_error 500 (error_only "Failed to reach consensus"), s).
Proof.
  intros qwen s.
  assert (Hn : decisions Trinity.created !! "id-9" = None) by (vm_compute; reflexivity).
  assert (Hd : is_Some (decisions s !! "id-0")) by (eexists; vm_compute; reflexivity).
  assert (Hall : allResponded Trinity.AI_MODELS (getAIResponses s "id-0") = true)
    by (vm_compute; reflexivity).
  assert (Hin : stamp "id-6" "T6" qwen ∈ getAIResponses s "id-0")
    by (apply (list_elem_of_lookup_2 _ 3); vm_compute; reflexivity).
  assert (Hrole : Trinity.AI_MODEL_ROLES !! "qwen" = None) by (vm_compute; reflexivity).
  assert (Hproto : Object_prototype "qwen" = None) by (vm_compute; reflexivity).
  split_and!; [exact Hn| |exact Hd|exact Hall|exact Hin|exact Hrole|exact Hproto|].
  - destruct (postConsensus_frame Trinity.AI_MODELS Trinity.AI_MODEL_ROLES (Trinity.sys "4")
                "id-9" Trinity.created) as (_ & _ & _ & Hunknown & _).
    exact (Hunknown Hn).
  - destruct (postConsensus_frame Trinity.AI_MODELS Trinity.AI_MODEL_ROLES (Trinity.sys "7")
                "id-0" s) as (_ & _ & _ & _ & Hthrows).
    destruct (Hthrows _ Hd Hall Hin Hrole Hproto) as [Hreply Hs].
    destruct (postConsensus _ _ _ _ _). simpl in *. by subst.
Defined.

Lemma postConsensus_again_witness :
  let s := Trinity.voted approve approve reject in
  ∃ c1 s1 c2 s2,
    postConsensus Trinity.AI_MODELS Trinity.AI_MODEL_ROLES (Trinity.sys "4") "id-0" s
    = (reply_json 201 (Some c1), s1)
    ∧ fetchConsensus "id-0" s1 = reply_json 200 c1
    ∧ postConsensus Trinity.AI_MODELS Trinity.AI_MODEL_ROLES (Trinity.sys "5") "id-0" s1
      = (reply_json 201 (Some c2), s2)
    ∧ outcome c2 = outcome c1 ∧ c_id c2 = "id-5".
Proof.
  intros s.
  destruct (postConsensus_created Trinity.AI_MODELS Trinity.AI_MODEL_ROLES
              (Trinity.sys "4") "id-0" s _
              (Trinity_voted_decision approve approve reject))
    as (text & _ & Hpost).
  { vm_compute. reflexivity. }
  { apply Forall_forall. compute_done. }
  destruct (postConsensus_again Trinity.AI_MODELS Trinity.AI_MODEL_ROLES
              (Trinity.sys "4") (Trinity.sys "5") "id-0" s _ _ Hpost)
    as (Hfetch & _ & c2 & s2 & Hpost2 & Ho & _ & _ & _ & _ & Hid & _).
  do 2 eexists. exists c2, s2.
  split_and!; [exact Hpost|exact Hfetch|exact Hpost2|exact Ho|exact Hid].
Defined.

Lemma patchDecision_cases_witness :
  let updates := {| upd_title := Some "Dark mode"; upd_description := None;
                    upd_context := None; upd_category := None; upd_priority := None;
                    upd_status := None |} in
  decisions Trinity.created !! "id-9" = None
  ∧ is_Some (decisions Trinity.created !! "id-0")
  ∧ patchDecision (Trinity.sys "7") "id-9" (Some updates) Trinity.created
    = (reply_error 404 (error_only "Decision not found"), Trinity.created)
  ∧ ∃ d' s',
      patchDecision (Trinity.sys "7") "id-0" (Some updates) Trinity.created
      = (reply_json 200 d', s')
      ∧ fetchDecision "id-0" s' = reply_json 200 d' ∧ updatedAt d' = "T7".
Proof.
  intros updates.
  assert (Hn : decisions Trinity.created !! "id-9" = None) by (vm_compute; reflexivity).
  assert (Hs : is_Some (decisions Trinity.created !! "id-0"))
    by (eexists; vm_compute; reflexivity).
  split_and!; [exact Hn|exact Hs| |].
  - destruct (patchDecision_cases (Trinity.sys "7") "id-9" Trinity.created)
      as (_ & Hunknown & _).
    exact (Hunknown updates Hn).
  - destruct (patchDecision_cases (Trinity.sys "7") "id-0" Trinity.created)
      as (_ & _ & Hknown).
    destruct (Hknown updates Hs) as (d' & s' & Hpatch & Hfetch & Ht & _).
    exists d', s'. split_and!; [exact Hpatch|exact Hfetch|exact Ht].
Defined.

Lemma api_no_orphans_witness :
  api_reachable Trinity.AI_MODELS Trinity.AI_MODEL_ROLES Trinity.created
  ∧ decisions Trinity.created !! "id-9" = None
  ∧ removeDecision "id-9" Trinity.created
    = (reply_error 404 (error_only "Decision not found"), Trinity.created).
Proof.
  assert (Hn : decisions Trinity.created !! "id-9" = None) by (vm_compute; reflexivity).
  split_and!; [exact Trinity_created_api_reachable|exact Hn|].
  destruct (api_no_orphans Trinity.AI_MODELS Trinity.AI_MODEL_ROLES Trinity.created "id-9"
              Trinity_created_api_reachable Hn) as (_ & _ & Hdel).
  exact Hdel.
Defined.

Lemma array_from_set_fixed_witness :
  NoDup ["add tests"; "ship it"]
  ∧ array_from_set ["add tests"; "ship it"] = ["add tests"; "ship it"].
Proof.
  assert (Hnd : NoDup ["add tests"; "ship it"]) by compute_done.
  split; [exact Hnd|].
  destruct (array_from_set_fixed ["add tests"; "ship it"]) as (Hfix & _).
  exact (Hfix Hnd).
Defined.

Lemma stats_by_key_witness :
  Object_prototype "feature" = None
  ∧ byCategory (calc_stats Board.listing) !! "feature" = Some (count_number 3)
  ∧ byPriority (calc_stats Board.listing) !! "feature" = None.
Proof.
  assert (Hk : Object_prototype "feature" = None) by (vm_compute; reflexivity).
  destruct (stats_by_key Board.listing "feature" Hk) as (Hc & Hp).
  split_and!; [exact Hk| |].
  - rewrite Hc. vm_compute. reflexivity.
  - rewrite Hp. vm_compute. reflexivity.
Defined.

Lemma stats_permutation_witness :
  Board.listing ≡ₚ reverse Board.listing
  ∧ calc_stats Board.listing = calc_stats (reverse Board.listing)
  ∧ totalDecisions (calc_stats (reverse Board.listing)) = 3.
Proof.
  assert (Hp : Board.listing ≡ₚ reverse Board.listing)
    by (symmetry; apply reverse_Permutation).
  pose proof (stats_permutation _ _ Hp) as Heq.
  split_and!; [exact Hp|exact Heq|]. rewrite <- Heq. vm_compute. reflexivity.
Defined.
